(** * Business-intelligence dashboard: the data pipeline of [src/app.py]

    A shallow embedding of the three pure stages of the dashboard

    - [load_data]: cleaning of the frame read from the CSV file,
    - the filter block at the head of [update_dashboard],
    - [compute_kpis] and the daily aggregate of [fig_orders_volume_trend],

    followed by the properties of the specification, each one stated over
    these definitions.

    Conventions.  A data frame is the list of its rows, in index order.  A
    missing cell (pandas' NaN, NaT or None) is [None].  A timestamp is the
    number of nanoseconds since the epoch, as in [datetime64[ns]].  The
    arithmetic of the numeric columns is an interface ([Number]) with two
    instances: IEEE binary64, which is what pandas computes with, and exact
    rationals.  Properties that depend on rounding are stated on binary64,
    through the standard library's specification of its operations. *)

From Stdlib Require Import ZArith QArith Floats Uint63 Ascii String Lia.
From stdpp Require Import base decidable option list gmap strings sorting.

Local Open Scope Z_scope.

(** ** Numbers *)

(** What [compute_kpis] and [load_data] ask of a numeric column: [+] (in
    [sum]), [/] and [*] (in the rates), the conversion of a Python [int],
    [astype(int)], and the test for NaN behind [fillna] and [skipna]. *)
Class Number (F : Type) := {
  num_zero : F;
  num_add : F → F → F;
  num_mul : F → F → F;
  num_div : F → F → F;
  num_of_int : Z → F;
  num_to_int : F → option Z;
  num_is_nan : F → bool;
  num_zero_not_nan : num_is_nan num_zero = false
}.

Definition num_of_nat `{Number F} (n : nat) : F := num_of_int (Z.of_nat n).

(** binary64.  Counts are far below [2^63], where [of_uint63] is the
    correctly rounded conversion.  [astype(int)] truncates towards zero and
    raises on NaN and on the infinities. *)
Definition float_of_int (z : Z) : float := PrimFloat.of_uint63 (Uint63.of_Z z).

Definition float_to_int (x : float) : option Z :=
  match Prim2SF x with
  | S754_zero _ => Some 0
  | S754_finite s m e =>
      let v := Z.shiftl (Z.pos m) e in Some (if s then - v else v)
  | S754_infinity _ | S754_nan => None
  end.

#[export] Instance float64 : Number float := {|
  num_zero := PrimFloat.zero;
  num_add := PrimFloat.add;
  num_mul := PrimFloat.mul;
  num_div := PrimFloat.div;
  num_of_int := float_of_int;
  num_to_int := float_to_int;
  num_is_nan := PrimFloat.is_nan;
  num_zero_not_nan := eq_refl
|}.

(** Exact rationals: no rounding and no NaN. *)
#[export] Instance exact : Number Q := {|
  num_zero := 0%Q;
  num_add := Qplus;
  num_mul := Qmult;
  num_div := Qdiv;
  num_of_int := inject_Z;
  num_to_int := λ q, Some (Z.quot (Qnum q) (Z.pos (Qden q)));
  num_is_nan := λ _, false;
  num_zero_not_nan := eq_refl
|}.

(** ** Timestamps and calendar dates *)

Definition ns_per_day : Z := 86400 * 1000000000.

(** [Series.dt.date]: the calendar day of a timestamp, as a day number. *)
Definition date (t : Z) : Z := t `div` ns_per_day.

(** [pd.to_datetime] of a calendar date: midnight at the start of that day. *)
Definition to_datetime (d : Z) : Z := d * ns_per_day.

(** ** The canonical table *)

Record order (F : Type) := Order {
  order_id : option string;
  order_date : option Z;
  order_value : F;
  delivery_time_minutes : option F;
  order_status : string;
  city : option string;
  customer_id : option string;
  is_repeat_customer : Z
}.
Arguments Order {F}.
Arguments order_id {F}.
Arguments order_date {F}.
Arguments order_value {F}.
Arguments delivery_time_minutes {F}.
Arguments order_status {F}.
Arguments city {F}.
Arguments customer_id {F}.
Arguments is_repeat_customer {F}.

Abbreviation frame F := (list (order F)).

(** ** KPI computation *)

Section Kpis.
Context `{Number F}.

(** [Series.sum()]: NaN entries count as zero ([skipna]), the empty sum
    is zero.  Entries are added from left to right, which is numpy's
    order below eight entries; above, numpy adds in blocks, which changes
    the rounding of the binary64 result and nothing else. *)
Definition sum (xs : list F) : F :=
  foldl (λ acc x, num_add acc (if num_is_nan x then num_zero else x))
        num_zero xs.

(** [Series.nunique()]: the number of distinct values, missing ones left
    out. *)
Definition nunique (col : list (option string)) : nat :=
  length (remove_dups (omap id col)).

(** [Series.value_counts()]: each value with its number of rows. *)
Definition value_counts (col : list string) : gmap string nat :=
  foldr (λ s m, <[s := S (default 0%nat (m !! s))]> m) ∅ col.

(** [Series.get(key, default)]. *)
Definition get (m : gmap string nat) (key : string) (dflt : nat) : nat :=
  default dflt (m !! key).

Definition repeat_customers (df : frame F) : nat :=
  nunique (customer_id <$> filter (λ r, is_repeat_customer r = 1) df).

Definition unique_customers (df : frame F) : nat :=
  nunique (customer_id <$> df).

Record kpis := Kpis {
  total_revenue : F;
  total_orders : nat;
  aov : F;
  repeat_rate : F;
  cancellation_rate : F
}.

Definition compute_kpis (df : frame F) : kpis :=
  let total_revenue := sum (order_value <$> df) in
  let total_orders := nunique (order_id <$> df) in
  let aov :=
    if decide (0 < total_orders)%nat
    then num_div total_revenue (num_of_nat total_orders)
    else num_zero in
  let repeat_customers := repeat_customers df in
  let unique_customers := unique_customers df in
  let repeat_rate :=
    if decide (0 < unique_customers)%nat
    then num_mul (num_div (num_of_nat repeat_customers)
                          (num_of_nat unique_customers))
                 (num_of_int 100)
    else num_zero in
  let cancellation_rate :=
    if decide (0 < total_orders)%nat
    then num_mul (num_div (num_of_nat (get (value_counts (order_status <$> df))
                                           "Cancelled" 0))
                          (num_of_nat total_orders))
                 (num_of_int 100)
    else num_zero in
  {| total_revenue := total_revenue;
     total_orders := total_orders;
     aov := aov;
     repeat_rate := repeat_rate;
     cancellation_rate := cancellation_rate |}.

End Kpis.

Arguments kpis F : clear implicits.

(** ** The daily order volume *)

Section Aggregates.
Context {F : Type}.

(** One group of [groupby(key).agg('count')]: add [n] counted cells to the
    row of key [k], keeping the rows in ascending key order. *)
Fixpoint bump (k : Z) (n : nat) (tbl : list (Z * nat)) : list (Z * nat) :=
  match tbl with
  | [] => [(k, n)]
  | (k', c) :: rest =>
      if decide (k < k') then (k, n) :: tbl
      else if decide (k = k') then (k', (c + n)%nat) :: rest
      else (k', c) :: bump k n rest
  end.

(** The frame [daily] that [fig_orders_volume_trend] plots: the rows
    grouped by the calendar day of [order_date] (rows without a date
    belong to no group), each group with its count of non-missing
    [order_id] cells, as column [orders]. *)
Definition fig_orders_volume_trend (df : frame F) : list (Z * nat) :=
  foldr (λ r daily,
           match order_date r with
           | Some t => bump (date t) (if order_id r is Some _ then 1 else 0)%nat daily
           | None => daily
           end) [] df.

Definition sum_counts (daily : list (Z * nat)) : nat :=
  foldr (λ row acc, (row.2 + acc)%nat) 0%nat daily.

End Aggregates.

(** ** The filter block of [update_dashboard] *)

Section Filters.
Context {F : Type}.

(** Python truthiness of a dropdown value: [None] and [[]] are false. *)
Definition truthy {A} (value : option (list A)) : bool :=
  match value with
  | Some (_ :: _) => true
  | _ => false
  end.

(** The masks [order_date >= b] and [order_date <= b]; a comparison with
    a missing date is false. *)
Definition ge_mask (b : Z) (r : order F) : bool :=
  match order_date r with
  | Some t => bool_decide (b ≤ t)
  | None => false
  end.

Definition le_mask (b : Z) (r : order F) : bool :=
  match order_date r with
  | Some t => bool_decide (t ≤ b)
  | None => false
  end.

(** [Series.isin(values)]. *)
Definition isin (v : option string) (values : list string) : bool :=
  match v with
  | Some s => bool_decide (s ∈ values)
  | None => false
  end.

Definition by_start (start_date : option Z) (dff : frame F) : frame F :=
  match start_date with
  | Some d => filter (λ r, ge_mask (to_datetime d) r) dff
  | None => dff
  end.

Definition by_end (end_date : option Z) (dff : frame F) : frame F :=
  match end_date with
  | Some d => filter (λ r, le_mask (to_datetime d) r) dff
  | None => dff
  end.

Definition by_city (selected_cities : option (list string))
    (dff : frame F) : frame F :=
  if truthy selected_cities
  then filter (λ r, isin (city r) (default [] selected_cities)) dff
  else dff.

Definition by_status (selected_statuses : option (list string))
    (dff : frame F) : frame F :=
  if truthy selected_statuses
  then filter (λ r, isin (Some (order_status r))
                         (default [] selected_statuses)) dff
  else dff.

(** The frame [dff] of [update_dashboard]: the four blocks in the order
    of the source. *)
Definition dff (start_date end_date : option Z)
    (selected_cities selected_statuses : option (list string))
    (orders : frame F) : frame F :=
  by_status selected_statuses
    (by_city selected_cities
       (by_end end_date
          (by_start start_date orders))).

(** What [update_dashboard] hands to the page, before rendering: the
    KPIs and the daily volume of the filtered frame. *)
Definition update_dashboard `{Number F} (start_date end_date : option Z)
    (selected_cities selected_statuses : option (list string))
    (orders : frame F) : kpis F * list (Z * nat) :=
  let dff := dff start_date end_date selected_cities selected_statuses
                 orders in
  (compute_kpis dff, fig_orders_volume_trend dff).

End Filters.

(** ** The filter blocks in any order *)

Section Blocks.
Context {F : Type}.

(** The four [if param: dff = dff[mask]] blocks, as a list. *)
Definition filter_blocks (start_date end_date : option Z)
    (selected_cities selected_statuses : option (list string))
    : list (frame F → frame F) :=
  [ by_start start_date; by_end end_date;
    by_city selected_cities; by_status selected_statuses ].

(** Running blocks one after the other, the first of the list first. *)
Definition run_blocks (blocks : list (frame F → frame F))
    (orders : frame F) : frame F :=
  foldl (λ dff block, block dff) orders blocks.

(** A block is a mask filter when it keeps exactly the rows on which some
    mask is true, in their order.  A block that is skipped is the filter
    of the mask that is true everywhere. *)
Definition mask_filter (block : frame F → frame F) : Prop :=
  ∃ mask : order F → bool, ∀ df, block df = filter (λ r, mask r) df.

End Blocks.

(** ** Loading and cleaning *)

(** A cell of the frame that [pd.read_csv] returns, in a column that may
    hold numbers: blank, a number, or text. *)
Inductive cell (F : Type) :=
  | Missing
  | Num (x : F)
  | Text (s : string).
Arguments Missing {F}.
Arguments Num {F}.
Arguments Text {F}.

Record raw_order (F : Type) := RawOrder {
  raw_order_id : option string;
  raw_order_date : option string;
  raw_order_value : cell F;
  raw_delivery_time_minutes : cell F;
  raw_order_status : option string;
  raw_city : option string;
  raw_customer_id : option string;
  raw_is_repeat_customer : cell F
}.
Arguments RawOrder {F}.
Arguments raw_order_id {F}.
Arguments raw_order_date {F}.
Arguments raw_order_value {F}.
Arguments raw_delivery_time_minutes {F}.
Arguments raw_order_status {F}.
Arguments raw_city {F}.
Arguments raw_customer_id {F}.
Arguments raw_is_repeat_customer {F}.

(** The frame read from the file: its rows, and whether the optional
    column [is_repeat_customer] is among its columns (when it is not,
    [raw_is_repeat_customer] is not looked at). *)
Record csv (F : Type) := Csv {
  has_is_repeat_customer : bool;
  rows : list (raw_order F)
}.
Arguments Csv {F}.
Arguments has_is_repeat_customer {F}.
Arguments rows {F}.

(** How pandas and Python read text: timestamps ([None] where
    [pd.to_datetime] would raise), numbers ([None] where [pd.to_numeric]
    would raise) and integers ([None] where [int] would raise).  They are
    parameters of the development, and they are those of the file at
    hand: pandas settles the format of a date column on its first cell
    that is not blank, so another file may be read by another parser.  No
    statement below carries a parser from one file to another. *)
Class Parsers (F : Type) := {
  parse_datetime : string → option Z;
  parse_number : string → option F;
  parse_int : string → option Z
}.

Section Load.
Context `{Number F} `{Parsers F}.

(** [pd.to_datetime(column, errors='coerce')]: NaT for what does not
    parse, and for a blank cell.  [parse_datetime] stands for the parser
    that pandas settles on for the date column of the file being read. *)
Definition to_datetime_coerce (c : option string) : option Z :=
  c ≫= parse_datetime.

Definition not_nan (x : F) : option F :=
  if num_is_nan x then None else Some x.

(** [pd.to_numeric(column, errors='coerce')]: NaN for what does not
    parse, and for a blank cell. *)
Definition to_numeric_coerce (c : cell F) : option F :=
  match c with
  | Missing => None
  | Num x => not_nan x
  | Text s => parse_number s ≫= not_nan
  end.

(** [Series.fillna(value)]. *)
Definition fillna (value : F) (x : option F) : F := default value x.

(** [Series.astype(str)]. *)
Definition astype_str (c : option string) : string := default "nan" c.

(** [Series.astype(int)], which raises on a blank or non-finite cell and
    on text that is no integer. *)
Definition astype_int (c : cell F) : option Z :=
  match c with
  | Missing => None
  | Num x => num_to_int x
  | Text s => parse_int s
  end.

(** The cleaning of one row that kept its date [t]. *)
Definition clean (has_flag : bool) (r : raw_order F) (t : Z)
    : option (order F) :=
  flag ← (if has_flag then astype_int (raw_is_repeat_customer r)
          else Some 0);
  Some {| order_id := raw_order_id r;
          order_date := Some t;
          order_value := fillna num_zero
                           (to_numeric_coerce (raw_order_value r));
          delivery_time_minutes :=
            to_numeric_coerce (raw_delivery_time_minutes r);
          order_status := astype_str (raw_order_status r);
          city := raw_city r;
          customer_id := raw_customer_id r;
          is_repeat_customer := flag |}.

(** [dropna(subset=['order_date'])] after [to_datetime]: the rows whose
    date parsed, each with its timestamp. *)
Definition dropna_order_date (rs : list (raw_order F))
    : list (raw_order F * Z) :=
  omap (λ r, pair r <$> to_datetime_coerce (raw_order_date r)) rs.

(** [load_data], from the frame that [pd.read_csv] returned.  [None] is
    the exception of [astype(int)]; it is raised after the rows without
    a date have been dropped, so only the rows that are kept can raise
    it. *)
Definition load_data (df : csv F) : option (frame F) :=
  mapM (λ rt, clean (has_is_repeat_customer df) rt.1 rt.2)
       (dropna_order_date (rows df)).

End Load.

(** ** Distinct order ids, as the specification words them *)

(** Following the words of the specification ("count of distinct
    [order_id] values"): the set of the order ids that occur in the view.
    Its cardinality is what [nunique], written from the source, is
    compared with. *)
Definition distinct_order_ids {F} (df : frame F) : gset string :=
  list_to_set (omap order_id df).

(** ** Rounding in binary64

    The operations of binary64 are specified by the standard library on
    mantissas and exponents ([SpecFloat]): a result is shifted right to
    53 bits, records of the bits shifted out tell whether it was exact, and
    it is rounded to nearest, ties to even.  These are the notions used to
    bound a rounded result. *)

(** Some bit shifted out of the record was set: the value is not exact. *)
Definition inexact (mrs : shr_record) : bool := shr_r mrs || shr_s mrs.

(** [b] is [a] shifted right by [n] bits. *)
Definition shifted (n : Z) (a b : shr_record) : Prop :=
  0 ≤ shr_m b
  ∧ shr_m b = shr_m a `div` 2 ^ n
  ∧ (inexact b = false ↔ inexact a = false ∧ shr_m a `mod` 2 ^ n = 0).

(** The binary64 number 100, that is [25 * 2^48 * 2^-46]. *)
Definition hundred : spec_float := S754_finite false 7036874417766400 (-46).

(** ** Text of the sample data

    The examples below read their text cells with these parsers: ISO
    timestamps ([YYYY-MM-DD], optionally followed by a blank or [T] and
    [HH:MM:SS]) and decimal integers.  On a column of such text, all in
    one format, they return what pandas returns; all other text they
    reject.  The theorems hold for every instance of [Parsers], this one
    included. *)

Definition digit (c : ascii) : option Z :=
  let n := Z.of_nat (nat_of_ascii c) in
  if decide (48 ≤ n ≤ 57) then Some (n - 48) else None.

Fixpoint digits (acc : Z) (cs : list ascii) : option Z :=
  match cs with
  | [] => Some acc
  | c :: cs => d ← digit c; digits (10 * acc + d) cs
  end.

Definition is_leap (y : Z) : bool :=
  bool_decide (y `mod` 4 = 0 ∧ (y `mod` 100 ≠ 0 ∨ y `mod` 400 = 0)).

Definition days_in_month (y m : Z) : Z :=
  if decide (m = 2) then (if is_leap y then 29 else 28)
  else if decide (m ∈ [4; 6; 9; 11]) then 30
  else 31.

(** Days from 1970-01-01 to the given day of the proleptic Gregorian
    calendar. *)
Definition days_from_civil (y m d : Z) : Z :=
  let y := if decide (m ≤ 2) then y - 1 else y in
  let era := y `div` 400 in
  let yoe := y - era * 400 in
  let doy := (153 * (if decide (2 < m) then m - 3 else m + 9) + 2) `div` 5
             + d - 1 in
  let doe := yoe * 365 + yoe `div` 4 - yoe `div` 100 + doy in
  era * 146097 + doe - 719468.

Definition iso_time (cs : list ascii) : option Z :=
  match cs with
  | [] => Some 0
  | sep :: h1 :: h2 :: ":" :: m1 :: m2 :: ":" :: s1 :: s2 :: [] =>
      guard (sep = " " ∨ sep = "T")%char;;
      h ← digits 0 [h1; h2];
      m ← digits 0 [m1; m2];
      s ← digits 0 [s1; s2];
      guard (h < 24 ∧ m < 60 ∧ s < 60);;
      Some (((h * 60 + m) * 60 + s) * 1000000000)
  | _ => None
  end%char.

Definition iso_datetime (text : string) : option Z :=
  match list_ascii_of_string text with
  | y1 :: y2 :: y3 :: y4 :: "-" :: m1 :: m2 :: "-" :: d1 :: d2 :: rest =>
      y ← digits 0 [y1; y2; y3; y4];
      m ← digits 0 [m1; m2];
      d ← digits 0 [d1; d2];
      guard (1 ≤ m ≤ 12 ∧ 1 ≤ d ≤ days_in_month y m);;
      t ← iso_time rest;
      Some (to_datetime (days_from_civil y m d) + t)
  | _ => None
  end%char.

(** The calendar day that the date picker sends as [YYYY-MM-DD]. *)
Definition iso_date (text : string) : option Z :=
  date <$> iso_datetime text.

Definition decimal_int (text : string) : option Z :=
  match list_ascii_of_string text with
  | [] | ["-"%char] => None
  | "-"%char :: cs => Z.opp <$> digits 0 cs
  | cs => digits 0 cs
  end.

Definition decimal_float (text : string) : option float :=
  (λ z, if decide (z < 0) then PrimFloat.opp (float_of_int (- z))
        else float_of_int z) <$> decimal_int text.

#[export] Instance sample_text : Parsers float := {|
  parse_datetime := iso_datetime;
  parse_number := decimal_float;
  parse_int := decimal_int
|}.

(** ** Sample frames *)

(** A cleaned row whose cells are all present. *)
Definition sale (id when : string) (value : float)
    (status town customer : string) (flag : Z) : order float :=
  {| order_id := Some id;
     order_date := iso_datetime when;
     order_value := value;
     delivery_time_minutes := Some (float_of_int 30);
     order_status := status;
     city := Some town;
     customer_id := Some customer;
     is_repeat_customer := flag |}.

(** Seven orders of one day, 29 in total. *)
Definition seven_orders : frame float :=
  [ sale "A1" "2024-01-01" 5 "Completed" "Pune" "c1" 0;
    sale "A2" "2024-01-01" 4 "Completed" "Pune" "c2" 0;
    sale "A3" "2024-01-01" 4 "Completed" "Pune" "c3" 0;
    sale "A4" "2024-01-01" 4 "Completed" "Delhi" "c4" 0;
    sale "A5" "2024-01-01" 4 "Completed" "Delhi" "c5" 0;
    sale "A6" "2024-01-01" 4 "Completed" "Delhi" "c6" 0;
    sale "A7" "2024-01-01" 4 "Completed" "Delhi" "c7" 0 ].

(** One order recorded on two rows (two items of the same basket). *)
Definition two_item_order : frame float :=
  [ sale "A1" "2024-01-01" 10 "Cancelled" "Pune" "c1" 0;
    sale "A1" "2024-01-01" 20 "Cancelled" "Pune" "c1" 0 ].

(** The scenario of the specification: three days, values 10, 20 and 30,
    one cancelled order. *)
Definition three_days : frame float :=
  [ sale "A1" "2024-01-01" 10 "Completed" "Pune" "c1" 0;
    sale "A2" "2024-01-02" 20 "Cancelled" "Delhi" "c2" 1;
    sale "A3" "2024-01-03" 30 "Completed" "Pune" "c1" 1 ].

(** An order placed in the afternoon of 3 January 2024. *)
Definition afternoon_order : order float :=
  sale "A9" "2024-01-03 14:30:00" 30 "Completed" "Pune" "c9" 0.

(** A row as read from the file.  The column [order_value] of the sample
    file holds one cell that is no number, so pandas reads the whole
    column as text. *)
Definition purchase (id : string) (when : option string) (value : string)
    : raw_order float :=
  {| raw_order_id := Some id;
     raw_order_date := when;
     raw_order_value := Text value;
     raw_delivery_time_minutes := Num (float_of_int 30);
     raw_order_status := Some "Completed";
     raw_city := Some "Pune";
     raw_customer_id := Some "c1";
     raw_is_repeat_customer := Num (float_of_int 0) |}.

(** Five rows: one whose date is no date, one without a date, one whose
    value is no number, and a refund. *)
Definition sample_csv : csv float :=
  Csv true
    [ purchase "A1" (Some "2024-01-01") "10";
      purchase "A2" (Some "not a date") "20";
      purchase "A3" None "30";
      purchase "A4" (Some "2024-01-02") "12 USD";
      purchase "A5" (Some "2024-01-03") "-5" ].

(** The canonical table of the sample file: rows A1, A4 and A5. *)
Definition sample_table : frame float := default [] (load_data sample_csv).

(** The rows of the file that [dropna] keeps: those whose date parses. *)
Definition kept_rows `{Parsers F} (df : csv F) : list (raw_order F) :=
  filter (λ raw, is_Some (to_datetime_coerce (raw_order_date raw))) (rows df).

(** ** The daily revenue *)

(** The value that a daily frame holds for day [k], if it has a row for
    it. *)
Fixpoint on_day {A} (k : Z) (rows : list (Z * A)) : option A :=
  match rows with
  | [] => None
  | (k', v) :: rest => if decide (k = k') then Some v else on_day k rest
  end.

(** One step of [groupby(key)]: put the row [x] in front of the group of
    key [k], keeping the groups in ascending key order. *)
Fixpoint add_to_group {A} (k : Z) (x : A) (groups : list (Z * list A))
    : list (Z * list A) :=
  match groups with
  | [] => [(k, [x])]
  | (k', xs) :: rest =>
      if decide (k < k') then (k, [x]) :: groups
      else if decide (k = k') then (k', x :: xs) :: rest
      else (k', xs) :: add_to_group k x rest
  end.

(** [df.groupby(df['order_date'].dt.date)]: the rows that have a date,
    grouped by calendar day; the days ascend, and the rows of a group are
    in the order of the frame. *)
Definition groupby_date {F} (df : frame F) : list (Z * frame F) :=
  foldr (λ r groups,
           match order_date r with
           | Some t => add_to_group (date t) r groups
           | None => groups
           end) [] df.

(** The frame [daily] that [fig_revenue_trend] plots: each day with the
    sum of its [order_value] cells.  The sum of a group is computed by
    pandas ([group_sum]); it is a parameter here. *)
Definition fig_revenue_trend {F} (group_sum : list F → F) (df : frame F)
    : list (Z * F) :=
  (λ g, (g.1, group_sum (order_value <$> g.2))) <$> groupby_date df.

(** ** The customer pie *)

(** The dictionary [{0: 'New Customer', 1: 'Repeat Customer'}] of
    [fig_customer_behavior]; [Series.map] gives a missing value for a flag
    that is no key of it. *)
Definition customer_type (flag : Z) : option string :=
  if decide (flag = 0) then Some "New Customer"
  else if decide (flag = 1) then Some "Repeat Customer"
  else None.

(** The frame [counts] that [fig_customer_behavior] plots: each customer
    type with its number of rows ([value_counts] leaves missing values
    out). *)
Definition fig_customer_behavior {F} (df : frame F) : gmap string nat :=
  value_counts (omap (λ r, customer_type (is_repeat_customer r)) df).

(** ** The controls of the layout *)

Section Layout.
Context {F : Type}.

(** [orders['order_date'].min()] and [.max()]: missing dates are skipped,
    and the result is missing when no row has a date. *)
Definition min_order_date (orders : frame F) : option Z :=
  match omap order_date orders with
  | [] => None
  | t :: ts => Some (foldr Z.min t ts)
  end.

Definition max_order_date (orders : frame F) : option Z :=
  match omap order_date orders with
  | [] => None
  | t :: ts => Some (foldr Z.max t ts)
  end.

(** The [start_date] and [end_date] that the date picker starts with: the
    calendar days of the earliest and of the latest order. *)
Definition date_range_start (orders : frame F) : option Z :=
  date <$> min_order_date orders.

Definition date_range_end (orders : frame F) : option Z :=
  date <$> max_order_date orders.

(** [Series.unique()]: the distinct values in order of first appearance,
    a missing value among them if there is one. *)
Fixpoint unique (col : list (option string)) : list (option string) :=
  match col with
  | [] => []
  | v :: col => v :: filter (λ w, w ≠ v) (unique col)
  end.

(** The values offered by the city dropdown. *)
Definition city_selector (orders : frame F) : list (option string) :=
  unique (city <$> orders).

End Layout.

(** * Properties *)

(** A decidable statement about sample data, settled by evaluating its
    decision procedure. *)
Ltac by_evaluation :=
  lazymatch goal with
  | |- ?P => apply (bool_decide_unpack P); vm_compute; reflexivity
  end.

(** ** Counting lemmas *)

Lemma get_value_counts (col : list string) (key : string) :
  get (value_counts col) key 0 = length (filter (λ s, s = key) col).
Proof.
  unfold get. induction col as [|s col IH]; simpl.
  - by rewrite lookup_empty.
  - rewrite lookup_insert, filter_cons.
    destruct (decide (s = key)) as [->|Hne]; simpl.
    + by rewrite IH.
    + done.
Qed.

Lemma filter_fmap_status `(df : frame F) (key : string) :
  filter (λ s, s = key) (order_status <$> df)
  = order_status <$> filter (λ r, order_status r = key) df.
Proof.
  induction df as [|r df IH]; [done|].
  rewrite fmap_cons, !filter_cons. simpl.
  destruct (decide (order_status r = key)); simpl; by rewrite IH.
Qed.

Lemma remove_dups_length_le (l : list string) :
  (length (remove_dups l) ≤ length l)%nat.
Proof.
  induction l as [|x l IH]; simpl; [done|].
  destruct (decide_rel elem_of x l); simpl; lia.
Qed.

Lemma remove_dups_length_eq (l : list string) :
  length (remove_dups l) = length l ↔ NoDup l.
Proof.
  induction l as [|x l IH]; simpl.
  - split; [constructor|done].
  - rewrite NoDup_cons. pose proof (remove_dups_length_le l).
    destruct (decide_rel elem_of x l); simpl.
    + split; [lia|tauto].
    + split.
      * intros Hlen. split; [done|]. apply IH. lia.
      * intros [_ Hnd]. f_equal. by apply IH.
Qed.

Lemma nunique_mono (col1 col2 : list (option string)) :
  (∀ x, Some x ∈ col1 → Some x ∈ col2) → (nunique col1 ≤ nunique col2)%nat.
Proof.
  intros Hsub. unfold nunique. apply submseteq_length, NoDup_submseteq.
  - apply NoDup_remove_dups.
  - intros x. rewrite !elem_of_remove_dups, !list_elem_of_omap.
    intros (o & Ho & Hx). exists (Some x). destruct o; simplify_eq/=. eauto.
Qed.

Lemma omap_id_fmap {A B} (f : A → option B) (l : list A) :
  omap id (f <$> l) = omap f l.
Proof.
  induction l as [|x l IH]; [done|]. csimpl. rewrite IH. by destruct (f x).
Qed.

(** [nunique] is the cardinality of the set of the values that occur. *)
Lemma nunique_size (col : list (option string)) :
  nunique col = size (list_to_set (omap id col) : gset string).
Proof.
  unfold nunique.
  rewrite <- (size_list_to_set (C:=gset string) (remove_dups (omap id col)))
    by apply NoDup_remove_dups.
  f_equal. apply set_eq. intros x.
  by rewrite !elem_of_list_to_set, elem_of_remove_dups.
Qed.

Lemma elem_of_distinct_order_ids `(df : frame F) (x : string) :
  x ∈ distinct_order_ids df ↔ ∃ r, r ∈ df ∧ order_id r = Some x.
Proof.
  unfold distinct_order_ids. by rewrite elem_of_list_to_set, list_elem_of_omap.
Qed.

(** The cardinality of a set is the length of each of its duplicate-free
    enumerations. *)
Lemma size_enumeration (X : gset string) (ids : list string) :
  NoDup ids → (∀ x, x ∈ ids ↔ x ∈ X) → length ids = size X.
Proof.
  intros Hnodup Hids. unfold size, set_size. simpl.
  apply Permutation_length, NoDup_Permutation; [done|apply NoDup_elements|].
  intros x. by rewrite Hids, elem_of_elements.
Qed.

Lemma total_orders_size `{Number F} (df : frame F) :
  total_orders (compute_kpis df) = size (distinct_order_ids df).
Proof.
  unfold distinct_order_ids. rewrite <- omap_id_fmap. apply nunique_size.
Qed.

(** ** Rounding in binary64

    Towards [float_percentage_bounds]: a quotient of counts times 100,
    computed in binary64, stays between 0 and 100.  The argument follows
    the library's rounding function [binary_round_aux] on integers: a
    right shift is a floor, rounding adds at most one unit and only to an
    inexact result, so a rounded result cannot pass a bound that is itself
    a multiple of the unit. *)

Lemma shifted_refl (a : shr_record) : 0 ≤ shr_m a → shifted 0 a a.
Proof.
  intros Ha. unfold shifted. rewrite Z.pow_0_r, Z.div_1_r, Z.mod_1_r. tauto.
Qed.

Lemma shifted_trans (n k : Z) (a b c : shr_record) :
  0 ≤ n → 0 ≤ k → 0 ≤ shr_m a →
  shifted n a b → shifted k b c → shifted (n + k) a c.
Proof.
  intros Hn Hk Ha (Hb & Hab & Hiab) (Hc & Hbc & Hibc).
  assert (0 < 2 ^ n) by (apply Z.pow_pos_nonneg; lia).
  assert (0 < 2 ^ k) by (apply Z.pow_pos_nonneg; lia).
  split; [done|]. split.
  - rewrite Hbc, Hab, Z.pow_add_r, Z.div_div by lia. done.
  - rewrite Hibc, Hiab, Hab, Z.pow_add_r by lia. clear Hibc Hiab.
    pose proof (Z.div_mod (shr_m a) (2 ^ n)).
    pose proof (Z.div_mod (shr_m a `div` 2 ^ n) (2 ^ k)).
    pose proof (Z.mod_pos_bound (shr_m a) (2 ^ n)).
    pose proof (Z.mod_pos_bound (shr_m a `div` 2 ^ n) (2 ^ k)).
    pose proof (Z.div_mod (shr_m a) (2 ^ n * 2 ^ k)).
    pose proof (Z.mod_pos_bound (shr_m a) (2 ^ n * 2 ^ k)).
    split.
    + intros [[Hi Hm1] Hm2]. split; [done|].
      apply Z.mod_divide; [lia|].
      exists ((shr_m a `div` 2 ^ n) `div` 2 ^ k). lia.
    + intros [Hi Hm]. apply Z.mod_divide in Hm as [q Hq]; [|lia].
      assert (shr_m a `mod` 2 ^ n = 0) as Hm1.
      { apply Z.mod_divide; [lia|]. exists (q * 2 ^ k). lia. }
      split; [done|].
      apply Z.mod_divide; [lia|]. exists q.
      apply (Z.mul_cancel_r _ _ (2 ^ n)); [lia|]. lia.
Qed.

(** One step of the shift, and any number of them. *)
Lemma shr_1_shifted (a : shr_record) : 0 ≤ shr_m a → shifted 1 a (shr_1 a).
Proof.
  destruct a as [m r s]. simpl. intros Hm. unfold shifted, inexact.
  change (2 ^ 1) with 2.
  destruct m as [|[p|p|]|p]; simpl; try lia.
  - rewrite Z.mod_0_l by lia. destruct r, s; simpl; intuition (try lia; try done).
  - rewrite (Pos2Z.inj_xI p).
    replace (2 * Z.pos p + 1) with (1 + Z.pos p * 2) by lia.
    rewrite Z.div_add, Z.mod_add by lia.
    change (1 `div` 2) with 0. change (1 `mod` 2) with 1.
    split; [lia|]. split; [lia|]. split; [done|intros [_ ?]; lia].
  - rewrite (Pos2Z.inj_xO p).
    replace (2 * Z.pos p) with (0 + Z.pos p * 2) by lia.
    rewrite Z.div_add, Z.mod_add by lia.
    change (0 `div` 2) with 0. change (0 `mod` 2) with 0.
    split; [lia|]. split; [lia|]. destruct r, s; simpl; intuition (try lia; try done).
  - change (1 `div` 2) with 0. change (1 `mod` 2) with 1.
    split; [lia|]. split; [lia|]. split; [done|intros [_ ?]; lia].
Qed.

Lemma iter_pos_shr_1 (p : positive) (a : shr_record) :
  0 ≤ shr_m a → shifted (Z.pos p) a (SpecFloat.iter_pos shr_1 p a).
Proof.
  revert a. induction p as [p IH|p IH|]; intros a Ha; simpl.
  - pose proof (shr_1_shifted a Ha) as H1.
    assert (0 ≤ shr_m (shr_1 a)) as Ha1 by apply H1.
    pose proof (IH _ Ha1) as H2.
    assert (0 ≤ shr_m (SpecFloat.iter_pos shr_1 p (shr_1 a))) as Ha2 by apply H2.
    pose proof (IH _ Ha2) as H3.
    replace (Z.pos p~1) with (1 + (Z.pos p + Z.pos p)) by (rewrite Pos2Z.inj_xI; lia).
    eapply shifted_trans; [lia|lia|done|exact H1|].
    eapply shifted_trans; [lia|lia|done|exact H2|exact H3].
  - pose proof (IH _ Ha) as H2.
    assert (0 ≤ shr_m (SpecFloat.iter_pos shr_1 p a)) as Ha2 by apply H2.
    pose proof (IH _ Ha2) as H3.
    replace (Z.pos p~0) with (Z.pos p + Z.pos p) by (rewrite Pos2Z.inj_xO; lia).
    eapply shifted_trans; [lia|lia|done|exact H2|exact H3].
  - by apply shr_1_shifted.
Qed.

(** [digits2_pos p] is the number of bits of [p]. *)
Lemma digits2_pos_bounds (p : positive) :
  2 ^ (Z.pos (digits2_pos p) - 1) ≤ Z.pos p < 2 ^ Z.pos (digits2_pos p).
Proof.
  induction p as [p IH|p IH|]; cbn [digits2_pos]; [| |done].
  - rewrite Pos2Z.inj_succ. change (Z.pos p~1) with (2 * Z.pos p + 1).
    replace (Z.succ (Z.pos (digits2_pos p)) - 1)
      with (Z.succ (Z.pos (digits2_pos p) - 1)) by lia.
    rewrite !Z.pow_succ_r by lia. lia.
  - rewrite Pos2Z.inj_succ. change (Z.pos p~0) with (2 * Z.pos p).
    replace (Z.succ (Z.pos (digits2_pos p)) - 1)
      with (Z.succ (Z.pos (digits2_pos p) - 1)) by lia.
    rewrite !Z.pow_succ_r by lia. lia.
Qed.

Lemma shr_record_of_loc_m (m : Z) (l : location) :
  shr_m (shr_record_of_loc m l) = m.
Proof. by destruct l as [|[]]. Qed.

Lemma inexact_of_loc (m : Z) (l : location) :
  inexact (shr_record_of_loc m l) = false ↔ l = loc_Exact.
Proof. destruct l as [|[]]; by split. Qed.

Lemma loc_of_shr_record_exact (mrs : shr_record) :
  loc_of_shr_record mrs = loc_Exact ↔ inexact mrs = false.
Proof. destruct mrs as [m [] []]; by split. Qed.

Lemma round_nearest_even_bounds (m : Z) (l : location) :
  m ≤ round_nearest_even m l ≤ m + 1
  ∧ (l = loc_Exact → round_nearest_even m l = m).
Proof.
  split; [|by intros ->].
  destruct l as [|[]]; simpl; try lia.
  destruct (Z.even m); lia.
Qed.

Lemma fexp_binary64 (x : Z) :
  fexp prec emax x = Z.max (x - 53) (-1074).
Proof. reflexivity. Qed.

(** [shr_fexp] shifts to the exponent that leaves 53 bits, or not at all. *)
Lemma shr_fexp_shifted (m e : Z) (l : location) :
  0 ≤ m →
  ∃ mrs, shr_fexp prec emax m e l
         = (mrs, Z.max e (fexp prec emax (Zdigits2 m + e)))
         ∧ shifted (Z.max e (fexp prec emax (Zdigits2 m + e)) - e)
                   (shr_record_of_loc m l) mrs.
Proof.
  intros Hm. unfold shr_fexp, shr.
  assert (0 ≤ shr_m (shr_record_of_loc m l)) as Hm'
    by by rewrite shr_record_of_loc_m.
  destruct (fexp prec emax (Zdigits2 m + e) - e) as [|n|n] eqn:Hn.
  - eexists. split; [f_equal; lia|].
    replace (Z.max _ _ - e) with 0 by lia. by apply shifted_refl.
  - eexists. split; [f_equal; lia|].
    replace (Z.max _ _ - e) with (Z.pos n) by lia. by apply iter_pos_shr_1.
  - eexists. split; [f_equal; lia|].
    replace (Z.max _ _ - e) with 0 by lia. by apply shifted_refl.
Qed.

(** The bound is [T * 2^t]; as a binary64 number it has exponent [eB]
    (for 100: [T = 25], [t = 2], [eB = -46]). *)
Section UpperBound.
Variables T t eB : Z.
Hypothesis T_pos : 0 < T.
Hypothesis eB_le_t : eB ≤ t.
Hypothesis T_small : T < 2 ^ (eB + 53 - t).
Hypothesis eB_range : -1074 ≤ eB ≤ 971.

Lemma T_small_exponent : 0 ≤ eB + 53 - t.
Proof.
  destruct (Z.lt_ge_cases (eB + 53 - t) 0) as [Hneg|]; [|lia].
  rewrite (Z.pow_neg_r _ _ Hneg) in T_small. lia.
Qed.

(** A mantissa under the bound is shifted to an exponent of at most
    [eB]. *)
Lemma stage (m e : Z) :
  0 ≤ m → e ≤ eB → m ≤ T * 2 ^ (t - e) →
  e ≤ Z.max e (fexp prec emax (Zdigits2 m + e)) ≤ eB.
Proof.
  intros Hm He Hle. rewrite fexp_binary64.
  enough (Zdigits2 m + e - 53 ≤ eB) by lia.
  destruct m as [|p|p]; simpl; [lia| |lia].
  pose proof (digits2_pos_bounds p) as [Hd _].
  pose proof T_small_exponent.
  assert (0 < 2 ^ (t - e)) by (apply Z.pow_pos_nonneg; lia).
  assert (2 ^ (eB + 53 - t) * 2 ^ (t - e) = 2 ^ (eB + 53 - e)) as Hpow.
  { rewrite <- Z.pow_add_r by lia. f_equal. lia. }
  assert (2 ^ (Z.pos (digits2_pos p) - 1) < 2 ^ (eB + 53 - e)) as Hlt by nia.
  apply Z.pow_lt_mono_r_iff in Hlt; lia.
Qed.

Lemma split_bound (e e' : Z) :
  e ≤ e' ≤ t → T * 2 ^ (t - e) = T * 2 ^ (t - e') * 2 ^ (e' - e).
Proof.
  intros He. rewrite <- Z.mul_assoc, <- Z.pow_add_r by lia.
  do 2 f_equal. lia.
Qed.

(** Rounding a value that is at most [T * 2^t], and below it when the
    mantissa is not exact, gives zero or a number that is at most
    [T * 2^t]. *)
Lemma binary_round_aux_upper (mx ex : Z) (lx : location) :
  0 ≤ mx → ex ≤ eB → mx ≤ T * 2 ^ (t - ex) →
  (lx ≠ loc_Exact → mx < T * 2 ^ (t - ex)) →
  match binary_round_aux prec emax false mx ex lx with
  | S754_zero false => True
  | S754_finite false m e => e ≤ eB ∧ Z.pos m ≤ T * 2 ^ (t - e)
  | _ => False
  end.
Proof.
  intros Hmx Hex Hle Hlt. unfold binary_round_aux.
  destruct (shr_fexp_shifted mx ex lx Hmx) as (mrs1 & -> & Hm1 & Hdiv1 & Hex1).
  pose proof (stage mx ex Hmx Hex Hle) as He1.
  set (e1 := Z.max ex (fexp prec emax (Zdigits2 mx + ex))) in *.
  rewrite shr_record_of_loc_m in Hdiv1, Hex1. rewrite inexact_of_loc in Hex1.
  pose proof (round_nearest_even_bounds (shr_m mrs1) (loc_of_shr_record mrs1))
    as [Hround Hexact].
  set (m2 := round_nearest_even (shr_m mrs1) (loc_of_shr_record mrs1)) in *.
  assert (0 < 2 ^ (e1 - ex)) as Hpow1 by (apply Z.pow_pos_nonneg; lia).
  assert (m2 ≤ T * 2 ^ (t - e1)) as Hm2.
  { rewrite (split_bound ex e1) in Hle, Hlt by lia.
    pose proof (Z.div_mod mx (2 ^ (e1 - ex)) ltac:(lia)).
    pose proof (Z.mod_pos_bound mx (2 ^ (e1 - ex)) ltac:(lia)).
    destruct (loc_of_shr_record mrs1) eqn:Hloc.
    - rewrite Hexact by done. nia.
    - assert (inexact mrs1 ≠ false) as Hin.
      { rewrite <- loc_of_shr_record_exact. by rewrite Hloc. }
      rewrite Hex1 in Hin.
      assert (mx < T * 2 ^ (t - e1) * 2 ^ (e1 - ex)).
      { destruct lx as [|c0]; [|by apply Hlt].
        destruct (decide (mx `mod` 2 ^ (e1 - ex) = 0)) as [|Hmod]; [tauto|].
        assert (mx ≠ T * 2 ^ (t - e1) * 2 ^ (e1 - ex)) as Hne; [|lia].
        intros Heq. by rewrite Heq, Z.mod_mul in Hmod by lia. }
      nia. }
  assert (0 ≤ m2) as Hm2pos by lia.
  destruct (shr_fexp_shifted m2 e1 loc_Exact Hm2pos)
    as (mrs2 & -> & Hm3 & Hdiv2 & _).
  pose proof (stage m2 e1 Hm2pos ltac:(lia) Hm2) as He2.
  set (e2 := Z.max e1 (fexp prec emax (Zdigits2 m2 + e1))) in *.
  rewrite shr_record_of_loc_m in Hdiv2.
  assert (0 < 2 ^ (e2 - e1)) as Hpow2 by (apply Z.pow_pos_nonneg; lia).
  assert (shr_m mrs2 ≤ T * 2 ^ (t - e2)) as Hm3le.
  { rewrite (split_bound e1 e2) in Hm2 by lia.
    pose proof (Z.div_mod m2 (2 ^ (e2 - e1)) ltac:(lia)).
    pose proof (Z.mod_pos_bound m2 (2 ^ (e2 - e1)) ltac:(lia)).
    nia. }
  destruct (shr_m mrs2) as [|m3|m3]; [done| |exfalso; clear -Hm3; lia].
  replace (e2 <=? emax - prec) with true; [simpl; split; [lia|done]|].
  symmetry. apply Z.leb_le. change (emax - prec) with 971. lia.
Qed.

End UpperBound.

(** [<=] on two positive numbers, by exponent and then by mantissa. *)
Lemma SFleb_finite (m mB : positive) (e eB : Z) :
  e ≤ eB → (e = eB → Z.pos m ≤ Z.pos mB) →
  SFleb (S754_finite false m e) (S754_finite false mB eB) = true.
Proof.
  intros He Hm. unfold SFleb, SFcompare.
  destruct (Z.compare_spec e eB) as [Heq|Hlt|Hgt]; [|done|lia].
  specialize (Hm Heq).
  change (Pos.compare_cont Eq m mB) with (Pos.compare m mB).
  destruct (Pos.compare_spec m mB); [done|done|lia].
Qed.

(** A mantissa of 53 bits with an exponent in range is not rounded. *)
Lemma binary_round_aux_canonical (s : bool) (m : positive) (e : Z) :
  digits2_pos m = 53%positive → -1074 ≤ e ≤ 971 →
  binary_round_aux prec emax s (Z.pos m) e loc_Exact = S754_finite s m e.
Proof.
  intros Hd He. unfold binary_round_aux.
  assert (∀ l, shr_fexp prec emax (Z.pos m) e l
               = (shr_record_of_loc (Z.pos m) l, e)) as Hshr.
  { intros l. unfold shr_fexp, shr. simpl Zdigits2. rewrite Hd, fexp_binary64.
    replace (Z.max (53 + e - 53) (-1074) - e) with 0 by lia. done. }
  rewrite Hshr. simpl. rewrite Hshr. simpl.
  replace (e <=? emax - prec) with true; [done|].
  symmetry. apply Z.leb_le. change (emax - prec) with 971. lia.
Qed.

Lemma iter_xO (p k : positive) :
  Z.pos (Pos.iter xO p k) = Z.pos p * 2 ^ Z.pos k
  ∧ digits2_pos (Pos.iter xO p k) = (digits2_pos p + k)%positive.
Proof.
  induction k as [|k IH] using Pos.peano_ind.
  - simpl. split; [lia|]. by rewrite Pos.add_1_r.
  - rewrite Pos.iter_succ. destruct IH as [IHv IHd]. split.
    + change (Z.pos (Pos.iter xO p k)~0) with (2 * Z.pos (Pos.iter xO p k)).
      rewrite IHv, Pos2Z.inj_succ, Z.pow_succ_r by lia. lia.
    + cbn [digits2_pos]. rewrite IHd. lia.
Qed.

(** The binary64 number of a positive integer below [2^53]: the integer
    itself, with a mantissa of 53 bits. *)
Lemma binary_normalize_int (n : Z) :
  0 < n < 2 ^ 53 →
  ∃ m e, binary_normalize prec emax n 0 false = S754_finite false m e
         ∧ -52 ≤ e ≤ 0
         ∧ Z.pos m = n * 2 ^ (- e)
         ∧ digits2_pos m = 53%positive.
Proof.
  intros Hn. destruct n as [|p|p]; [lia| |lia]. simpl binary_normalize.
  unfold binary_round.
  pose proof (digits2_pos_bounds p) as [Hlo _].
  assert (Z.pos (digits2_pos p) ≤ 53) as Hd.
  { assert (2 ^ (Z.pos (digits2_pos p) - 1) < 2 ^ 53) as Hlt by lia.
    apply Z.pow_lt_mono_r_iff in Hlt; lia. }
  rewrite fexp_binary64. unfold shl_align.
  destruct (Z.max (Z.pos (digits2_pos p) + 0 - 53) (-1074) - 0)
    as [|k|k] eqn:Hk; [|lia|].
  - exists p, 0. split; [|split; [lia|split; [simpl; lia|lia]]].
    apply binary_round_aux_canonical; lia.
  - destruct (iter_xO p k) as [Hv Hdk].
    exists (Pos.iter xO p k), (Z.max (Z.pos (digits2_pos p) + 0 - 53) (-1074)).
    split; [|split; [lia|split; [|lia]]].
    + apply binary_round_aux_canonical; lia.
    + rewrite Hv. do 2 f_equal. lia.
Qed.

Lemma new_location_exact (n : Z) : new_location n 0 = loc_Exact.
Proof.
  unfold new_location, new_location_even, new_location_odd.
  by destruct (Z.even n).
Qed.

(** The quotient of two such numbers, the first at most the second, is at
    most 1. *)
Lemma SFdiv_le_one (mr mu : positive) (er eu : Z) :
  digits2_pos mr = 53%positive → digits2_pos mu = 53%positive →
  -52 ≤ er ≤ 0 → -52 ≤ eu ≤ 0 → er ≤ eu →
  Z.pos mr ≤ Z.pos mu * 2 ^ (eu - er) →
  match SFdiv prec emax (S754_finite false mr er) (S754_finite false mu eu) with
  | S754_zero false => True
  | S754_finite false m e => e ≤ -52 ∧ Z.pos m ≤ 1 * 2 ^ (0 - e)
  | _ => False
  end.
Proof.
  intros Hdr Hdu Her Heu Hle Hru. unfold SFdiv, SFdiv_core_binary.
  simpl Zdigits2. rewrite Hdr, Hdu, fexp_binary64.
  replace (Z.min (Z.max (53 + er - (53 + eu) - 53) (-1074)) (er - eu))
    with (er - eu - 53) by lia.
  replace (er - eu - (er - eu - 53)) with 53 by lia.
  rewrite Z.shiftl_mul_pow2 by lia.
  pose proof (Z_div_mod (Z.pos mr * 2 ^ 53) (Z.pos mu) ltac:(lia)) as Hdiv.
  destruct (Z.div_eucl (Z.pos mr * 2 ^ 53) (Z.pos mu)) as [q r].
  destruct Hdiv as [Hdiv Hr]. simpl xorb.
  assert (0 < 2 ^ (eu - er)) by (apply Z.pow_pos_nonneg; lia).
  assert (2 ^ (0 - (er - eu - 53)) = 2 ^ (eu - er) * 2 ^ 53) as Hpow.
  { rewrite <- Z.pow_add_r by lia. f_equal. lia. }
  apply (binary_round_aux_upper 1 0 (-52)); try done; try lia.
  - nia.
  - rewrite Hpow. nia.
  - intros Hloc. rewrite Hpow.
    assert (r ≠ 0) by (intros ->; by rewrite new_location_exact in Hloc).
    nia.
Qed.

(** A number between 0 and 1, times 100, is between 0 and 100. *)
Lemma SFmul_hundred (q : spec_float) :
  match q with
  | S754_zero false => True
  | S754_finite false m e => e ≤ -52 ∧ Z.pos m ≤ 1 * 2 ^ (0 - e)
  | _ => False
  end →
  SFleb (S754_zero false) (SFmul prec emax q hundred) = true
  ∧ SFleb (SFmul prec emax q hundred) hundred = true.
Proof.
  destruct q as [[]|?| |[] m e]; try done. intros [He Hm].
  unfold hundred. cbn [SFmul xorb].
  assert (0 < 2 ^ (- e)) by (apply Z.pow_pos_nonneg; lia).
  assert (2 ^ (2 - (e + -46)) = 2 ^ 48 * 2 ^ (- e)) as Hpow.
  { rewrite <- Z.pow_add_r by lia. f_equal. lia. }
  pose proof (binary_round_aux_upper 25 2 (-46) ltac:(lia) ltac:(lia)
                ltac:(done) ltac:(lia)
                (Z.pos (m * 7036874417766400)) (e + -46) loc_Exact
                ltac:(lia) ltac:(lia)) as Hround.
  rewrite Hpow in Hround.
  replace (0 - e) with (- e) in Hm by lia.
  specialize (Hround ltac:(rewrite Pos2Z.inj_mul; nia) ltac:(done)).
  destruct (binary_round_aux _ _ _ _ _ _) as [[]|?| |[] m' e']; try done.
  destruct Hround as [He' Hm']. split; [done|].
  apply SFleb_finite; [done|]. intros ->.
  by replace (25 * 2 ^ (2 - -46)) with 7036874417766400 in Hm'.
Qed.

(** [float_of_int] on a count. *)
Lemma float_of_int_SF (n : Z) :
  0 ≤ n < 2 ^ 53 →
  Prim2SF (float_of_int n) = binary_normalize prec emax n 0 false.
Proof.
  intros Hn. unfold float_of_int. rewrite of_uint63_spec. f_equal.
  rewrite Uint63.of_Z_spec. apply Z.mod_small.
  change wB with (2 ^ 63). 
  assert (2 ^ 53 < 2 ^ 63) by done. lia.
Qed.

(** binary64: a quotient of two counts, the first at most the second,
    times 100, lies between 0 and 100. *)
Lemma float_percentage_bounds (r u : nat) :
  (r ≤ u)%nat → (0 < u)%nat → Z.of_nat u < 2 ^ 53 →
  PrimFloat.leb PrimFloat.zero
    (PrimFloat.mul (PrimFloat.div (float_of_int (Z.of_nat r))
                                  (float_of_int (Z.of_nat u)))
                   (float_of_int 100)) = true
  ∧ PrimFloat.leb
      (PrimFloat.mul (PrimFloat.div (float_of_int (Z.of_nat r))
                                    (float_of_int (Z.of_nat u)))
                     (float_of_int 100))
      (float_of_int 100) = true.
Proof.
  intros Hru Hu Hsmall.
  rewrite !FloatAxioms.leb_spec, FloatAxioms.mul_spec, FloatAxioms.div_spec.
  change (Prim2SF PrimFloat.zero) with (S754_zero false).
  change (Prim2SF (float_of_int 100)) with hundred.
  rewrite !float_of_int_SF by lia.
  apply SFmul_hundred.
  destruct (binary_normalize_int (Z.of_nat u) ltac:(lia))
    as (mu & eu & -> & Heu & Hmu & Hdu).
  destruct (decide (r = 0)%nat) as [->|Hr]; [done|].
  destruct (binary_normalize_int (Z.of_nat r) ltac:(lia))
    as (mr & er & -> & Her & Hmr & Hdr).
  pose proof (digits2_pos_bounds mr) as [Hmr_lo _].
  pose proof (digits2_pos_bounds mu) as [_ Hmu_hi].
  rewrite Hdr in Hmr_lo. rewrite Hdu in Hmu_hi.
  change (2 ^ (53 - 1)) with (2 ^ 52) in Hmr_lo.
  assert (2 ^ 53 = 2 * 2 ^ 52) as H53 by done.
  assert (er ≤ eu) as Hle.
  { destruct (Z.le_gt_cases er eu) as [|Hgt]; [done|exfalso].
    assert (2 ^ (- eu) = 2 ^ (- er) * 2 ^ (er - eu)) as Hpow.
    { rewrite <- Z.pow_add_r by lia. f_equal. lia. }
    assert (0 < 2 ^ (- er)) by (apply Z.pow_pos_nonneg; lia).
    assert (2 ^ 1 ≤ 2 ^ (er - eu)) by (apply Z.pow_le_mono_r; lia).
    change (2 ^ 1) with 2 in *.
    rewrite Hpow in Hmu. nia. }
  apply SFdiv_le_one; try done.
  assert (2 ^ (- er) = 2 ^ (- eu) * 2 ^ (eu - er)) as Hpow.
  { rewrite <- Z.pow_add_r by lia. f_equal. lia. }
  assert (0 < 2 ^ (- eu)) by (apply Z.pow_pos_nonneg; lia).
  assert (0 < 2 ^ (eu - er)) by (apply Z.pow_pos_nonneg; lia).
  rewrite Hmr, Hmu, Hpow. nia.
Qed.

(** ** Key performance indicators *)

Section KpiFacts.
Context `{Number F}.

Lemma total_orders_eq (df : frame F) :
  total_orders (compute_kpis df) = nunique (order_id <$> df).
Proof. reflexivity. Qed.

Lemma cancelled_rows_eq (df : frame F) :
  get (value_counts (order_status <$> df)) "Cancelled" 0
  = length (filter (λ r, order_status r = "Cancelled") df).
Proof.
  by rewrite get_value_counts, filter_fmap_status, length_fmap.
Qed.

Lemma repeat_le_unique (df : frame F) :
  (repeat_customers df ≤ unique_customers df)%nat.
Proof.
  apply nunique_mono. intros x.
  rewrite !list_elem_of_fmap. intros (r & -> & Hr).
  apply list_elem_of_filter in Hr as [_ Hr]. eauto.
Qed.

End KpiFacts.

(** In exact arithmetic a quotient of two counts, the first at most the
    second, is a percentage. *)
Lemma percentage_bounds (r u : nat) :
  (r ≤ u)%nat → (0 < u)%nat →
  (0 <= num_mul (num_div (num_of_nat r) (num_of_nat u)) (num_of_int 100))%Q
  ∧ (num_mul (num_div (num_of_nat r) (num_of_nat u)) (num_of_int 100) <= 100)%Q.
Proof.
  intros Hru Hu. unfold num_of_nat. simpl.
  assert (0 < inject_Z (Z.of_nat u))%Q as Hupos.
  { change 0%Q with (inject_Z 0). rewrite <- Zlt_Qlt. lia. }
  assert (0 <= inject_Z (Z.of_nat r))%Q as Hrpos.
  { change 0%Q with (inject_Z 0). rewrite <- Zle_Qle. lia. }
  assert (inject_Z (Z.of_nat r) <= inject_Z (Z.of_nat u))%Q as Hle.
  { rewrite <- Zle_Qle. lia. }
  split.
  - apply Qmult_le_0_compat; [|done].
    apply Qle_shift_div_l; [done|]. by rewrite Qmult_0_l.
  - assert (inject_Z (Z.of_nat r) / inject_Z (Z.of_nat u) <= 1)%Q as Hq.
    { apply Qle_shift_div_r; [done|]. by rewrite Qmult_1_l. }
    apply (Qmult_le_compat_r _ _ (inject_Z 100)) in Hq; [|done].
    by rewrite Qmult_1_l in Hq.
Qed.

(** C2. For every view, [cancellation_rate] is the number of rows whose
    [order_status] is ["Cancelled"], divided by [total_orders], times 100,
    and it is 0 when [total_orders] is 0.  [total_orders] is the number of
    distinct [order_id] values: the cardinality of the set of the ids that
    occur in the view, which is the length of every duplicate-free list of
    those ids.  The numerator is a number of rows: an order recorded on
    several rows is counted once per row. *)
Theorem cancellation_rate_counts_rows `{Number F} (df : frame F) :
  let cancelled_rows :=
    length (filter (λ r, order_status r = "Cancelled") df) in
  let distinct_orders := size (distinct_order_ids df) in
  (∀ x, x ∈ distinct_order_ids df ↔ ∃ r, r ∈ df ∧ order_id r = Some x)
  ∧ (∀ ids, NoDup ids →
            (∀ x, x ∈ ids ↔ ∃ r, r ∈ df ∧ order_id r = Some x) →
            length ids = distinct_orders)
  ∧ total_orders (compute_kpis df) = distinct_orders
  ∧ cancellation_rate (compute_kpis df)
    = if decide (distinct_orders = 0)%nat then num_zero
      else num_mul (num_div (num_of_nat cancelled_rows)
                            (num_of_nat distinct_orders))
                   (num_of_int 100).
Proof.
  intros cancelled_rows distinct_orders.
  pose proof (total_orders_size df) as Horders.
  split; [apply elem_of_distinct_order_ids|].
  split.
  { intros ids Hnodup Hids. apply size_enumeration; [done|].
    intros x. by rewrite Hids, elem_of_distinct_order_ids. }
  split; [done|].
  rewrite total_orders_eq in Horders.
  unfold compute_kpis; simpl.
  rewrite cancelled_rows_eq, Horders. fold distinct_orders.
  destruct (decide (0 < distinct_orders)%nat) as [Hpos|Hzero].
  - by rewrite decide_False by lia.
  - by rewrite decide_True by lia.
Qed.

(** The scenario of the specification: of the three-day table, the
    status filter keeps the one cancelled order. *)
Example cancelled_orders_of_three_days :
  (update_dashboard None None None (Some ["Cancelled"]) three_days).1
  = {| total_revenue := float_of_int 20; total_orders := 1;
       aov := float_of_int 20; repeat_rate := float_of_int 100;
       cancellation_rate := float_of_int 100 |}.
Proof. by vm_compute. Qed.

(** An order on two rows, both cancelled: two cancelled rows over one
    order, 200 percent. *)
Example cancellation_rate_two_item_order :
  total_orders (compute_kpis two_item_order) = 1%nat
  ∧ cancellation_rate (compute_kpis two_item_order) = float_of_int 200.
Proof. by vm_compute. Qed.




(** C6. A filtered view without rows has all five KPIs equal to 0; the
    computation is total, so nothing is raised. *)
Theorem empty_view_kpis `{Number F} (start_date end_date : option Z)
    (selected_cities selected_statuses : option (list string))
    (orders : frame F) :
  dff start_date end_date selected_cities selected_statuses orders = [] →
  (update_dashboard start_date end_date selected_cities selected_statuses
     orders).1
  = {| total_revenue := num_zero; total_orders := 0; aov := num_zero;
       repeat_rate := num_zero; cancellation_rate := num_zero |}.
Proof.
  intros Hempty. unfold update_dashboard. simpl. by rewrite Hempty.
Qed.

(** A city filter that matches no row of the three-day table. *)
Lemma empty_view_kpis_witness :
  (update_dashboard None None (Some ["Agra"]) None three_days).1
  = Kpis PrimFloat.zero 0 PrimFloat.zero PrimFloat.zero PrimFloat.zero.
Proof.
  refine (empty_view_kpis None None (Some ["Agra"]) None three_days _).
  by vm_compute.
Defined.

(** [repeat_rate] in exact arithmetic: between 0 and 100 for every view. *)
Lemma repeat_rate_exact_bounds (df : frame Q) :
  (0 <= repeat_rate (compute_kpis df))%Q
  ∧ (repeat_rate (compute_kpis df) <= 100)%Q.
Proof.
  unfold compute_kpis; simpl.
  destruct (decide (0 < unique_customers df)%nat) as [Hpos|_].
  - apply percentage_bounds; [apply repeat_le_unique|done].
  - split; [apply Qle_refl|done].
Qed.

(** C10.  The number of distinct customers among the rows flagged as
    repeat is at most the number of distinct customers of the view, and
    the rate is 0 when the view has no customer; so [repeat_rate], as
    binary64 computes it, lies between 0 and 100 inclusive.  The view has
    fewer than [2^53] distinct customers, the range in which binary64
    holds every count exactly. *)
Theorem repeat_rate_between_0_and_100 (df : frame float) :
  Z.of_nat (unique_customers df) < 2 ^ 53 →
  (repeat_customers df ≤ unique_customers df)%nat
  ∧ PrimFloat.leb PrimFloat.zero (repeat_rate (compute_kpis df)) = true
  ∧ PrimFloat.leb (repeat_rate (compute_kpis df)) (float_of_int 100) = true
  ∧ (unique_customers df = 0%nat →
     repeat_rate (compute_kpis df) = PrimFloat.zero).
Proof.
  intros Hsmall. pose proof (repeat_le_unique df) as Hle.
  split; [done|]. unfold compute_kpis; simpl.
  destruct (decide (0 < unique_customers df)%nat) as [Hpos|Hzero].
  - pose proof (float_percentage_bounds _ _ Hle Hpos Hsmall) as [Hlo Hhi].
    repeat split; [done|done|lia].
  - repeat split; by vm_compute.
Qed.

Lemma repeat_rate_between_0_and_100_witness :
  PrimFloat.leb (repeat_rate (compute_kpis three_days)) (float_of_int 100)
  = true.
Proof.
  apply (repeat_rate_between_0_and_100 three_days). by vm_compute.
Defined.

(** ** The daily order volume *)

Lemma sum_counts_bump (k : Z) (n : nat) (tbl : list (Z * nat)) :
  sum_counts (bump k n tbl) = (n + sum_counts tbl)%nat.
Proof.
  induction tbl as [|[k' c] tbl IH]; simpl; [done|].
  repeat case_decide; simpl; lia.
Qed.

(** The counts of [daily] add up to the number of rows that have a date
    and an [order_id]. *)
Lemma sum_counts_daily `(df : frame F) :
  sum_counts (fig_orders_volume_trend df)
  = length (omap order_id (filter (λ r, is_Some (order_date r)) df)).
Proof.
  induction df as [|r df IH]; [done|].
  rewrite filter_cons. simpl.
  destruct (order_date r) as [t|] eqn:Ht.
  - rewrite decide_True by eauto. rewrite sum_counts_bump, IH. simpl.
    by destruct (order_id r).
  - rewrite decide_False by (by intros [? ?]). done.
Qed.

Lemma filter_dated `(df : frame F) :
  Forall (λ r, is_Some (order_date r)) df →
  filter (λ r, is_Some (order_date r)) df = df.
Proof.
  induction 1 as [|r df Hr _ IH]; [done|].
  by rewrite filter_cons, decide_True, IH.
Qed.

(** C1, as the specification words it, fails: one order on two rows of the
    same day is counted twice in [daily] and once in [total_orders]. *)
Example daily_counts_exceed_total_orders :
  sum_counts (fig_orders_volume_trend two_item_order) = 2%nat
  ∧ total_orders (compute_kpis two_item_order) = 1%nat.
Proof. split; by vm_compute. Qed.

(** C1, amended.  In a view whose rows all have a date (every filtered
    view of the canonical table), the per-day counts add up to the number
    of rows with an [order_id]; [total_orders] is at most that number, and
    the two are equal exactly when no [order_id] occurs on two rows. *)
Theorem daily_counts_add_up_to_rows `{Number F} (df : frame F) :
  Forall (λ r, is_Some (order_date r)) df →
  sum_counts (fig_orders_volume_trend df) = length (omap order_id df)
  ∧ (total_orders (compute_kpis df)
     ≤ sum_counts (fig_orders_volume_trend df))%nat
  ∧ (sum_counts (fig_orders_volume_trend df)
     = total_orders (compute_kpis df) ↔ NoDup (omap order_id df)).
Proof.
  intros Hdated.
  rewrite sum_counts_daily, (filter_dated df Hdated), total_orders_eq.
  unfold nunique. rewrite omap_id_fmap.
  split; [done|]. split; [apply remove_dups_length_le|].
  rewrite <- remove_dups_length_eq. split; intros Heq; by rewrite Heq.
Qed.

Lemma daily_counts_add_up_to_rows_witness :
  sum_counts (fig_orders_volume_trend three_days)
  = total_orders (compute_kpis three_days).
Proof.
  apply (daily_counts_add_up_to_rows three_days).
  - by_evaluation.
  - by_evaluation.
Defined.

(** ** The filter block *)

Section FilterFacts.
Context {F : Type}.
Implicit Types (df orders : frame F) (r : order F).

Lemma filter_true df : filter (λ r, (λ _ : order F, true) r) df = df.
Proof.
  induction df as [|r df IH]; [done|].
  by rewrite filter_cons, decide_True, IH.
Qed.

Lemma mask_filter_id : mask_filter (F:=F) (λ df, df).
Proof. exists (λ _, true). intros df. by rewrite filter_true. Qed.

Lemma mask_filter_by_start start_date : mask_filter (F:=F) (by_start start_date).
Proof. destruct start_date; [by eexists|apply mask_filter_id]. Qed.

Lemma mask_filter_by_end end_date : mask_filter (F:=F) (by_end end_date).
Proof. destruct end_date; [by eexists|apply mask_filter_id]. Qed.

Lemma mask_filter_by_city selected_cities :
  mask_filter (F:=F) (by_city selected_cities).
Proof.
  unfold by_city.
  destruct (truthy selected_cities); [by eexists|apply mask_filter_id].
Qed.

Lemma mask_filter_by_status selected_statuses :
  mask_filter (F:=F) (by_status selected_statuses).
Proof.
  unfold by_status.
  destruct (truthy selected_statuses); [by eexists|apply mask_filter_id].
Qed.

Lemma mask_filters_commute (f g : frame F → frame F) df :
  mask_filter f → mask_filter g → f (g df) = g (f df).
Proof.
  intros [mf Hf] [mg Hg]. rewrite !Hf, !Hg, !list_filter_filter.
  apply list_filter_iff. tauto.
Qed.

Lemma filter_blocks_are_mask_filters start_date end_date
    selected_cities selected_statuses :
  Forall (mask_filter (F:=F))
    (filter_blocks start_date end_date selected_cities selected_statuses).
Proof.
  repeat apply Forall_cons_2; [| | | |apply Forall_nil_2].
  - apply mask_filter_by_start.
  - apply mask_filter_by_end.
  - apply mask_filter_by_city.
  - apply mask_filter_by_status.
Qed.

(** Blocks that commute can be run in any order. *)
Lemma run_blocks_permutation (blocks1 blocks2 : list (frame F → frame F)) :
  blocks1 ≡ₚ blocks2 → Forall mask_filter blocks1 →
  ∀ df, run_blocks blocks1 df = run_blocks blocks2 df.
Proof.
  unfold run_blocks.
  induction 1 as [|f l1 l2 Hperm IH|f g l|l1 l2 l3 H12 IH12 H23 IH23];
    intros Hmask df; simpl.
  - done.
  - apply IH. by eapply Forall_cons_1.
  - apply Forall_cons_1 in Hmask as [Hg Hrest].
    apply Forall_cons_1 in Hrest as [Hf _].
    by rewrite (mask_filters_commute f g).
  - rewrite IH12 by done. apply IH23. by rewrite <- H12.
Qed.

Lemma run_filter_blocks start_date end_date selected_cities
    selected_statuses orders :
  run_blocks
    (filter_blocks start_date end_date selected_cities selected_statuses)
    orders
  = dff start_date end_date selected_cities selected_statuses orders.
Proof. reflexivity. Qed.

(** Midnight of day [d] is at or before [t] exactly when [d] is at or
    before the day of [t]. *)
Lemma to_datetime_le_iff (d t : Z) : to_datetime d ≤ t ↔ d ≤ date t.
Proof.
  unfold to_datetime, date.
  assert (0 < ns_per_day) as Hpos by done.
  split; intros Hle.
  - apply Z.div_le_lower_bound; lia.
  - pose proof (Z.mul_div_le t ns_per_day Hpos). nia.
Qed.

(** [t] is at or before midnight of day [d] exactly when its day is before
    [d], or [t] is that midnight. *)
Lemma le_to_datetime_iff (d t : Z) :
  t ≤ to_datetime d ↔ date t < d ∨ t = to_datetime d.
Proof.
  destruct (decide (t = to_datetime d)) as [->|Hne]; [intuition lia|].
  pose proof (to_datetime_le_iff d t). lia.
Qed.

Lemma by_start_keeps (d : Z) df r :
  r ∈ by_start (Some d) df
  ↔ r ∈ df ∧ ∃ t, order_date r = Some t ∧ d ≤ date t.
Proof.
  unfold by_start, ge_mask. rewrite list_elem_of_filter.
  destruct (order_date r) as [t|]; simpl.
  - rewrite bool_decide_spec, to_datetime_le_iff. split.
    + intros [Hd Hin]. eauto.
    + by intros (Hin & t' & [= <-] & Hd).
  - split; [by intros [[] _]|by intros (_ & t & [=] & _)].
Qed.

Lemma by_end_keeps (d : Z) df r :
  r ∈ by_end (Some d) df
  ↔ r ∈ df ∧ ∃ t, order_date r = Some t
                  ∧ (date t < d ∨ t = to_datetime d).
Proof.
  unfold by_end, le_mask. rewrite list_elem_of_filter.
  destruct (order_date r) as [t|]; simpl.
  - rewrite bool_decide_spec, le_to_datetime_iff. split.
    + intros [Hd Hin]. eauto.
    + by intros (Hin & t' & [= <-] & Hd).
  - split; [by intros [[] _]|by intros (_ & t & [=] & _)].
Qed.

(** A row of the end day itself is dropped unless it was placed at
    midnight sharp. *)
Lemma by_end_drops_the_end_day (d t : Z) df r :
  order_date r = Some t → date t = d → t ≠ to_datetime d →
  r ∉ by_end (Some d) df.
Proof.
  intros Ht Hday Hne. rewrite by_end_keeps. rewrite Ht.
  intros (_ & t' & [= <-] & [Hlt | Heq]); [lia|done].
Qed.

End FilterFacts.

(** C3.  The end of the date range is not inclusive in the code: an order
    placed in the afternoon of 3 January falls on the end date 3 January
    and is dropped, because the end date is compared as the midnight that
    opens it.  The same order is kept by the start date 3 January. *)
Theorem end_date_drops_the_afternoon :
  date <$> order_date afternoon_order = iso_date "2024-01-03"
  ∧ dff None (iso_date "2024-01-03") None None [afternoon_order] = []
  ∧ dff (iso_date "2024-01-03") None None None [afternoon_order]
    = [afternoon_order].
Proof. repeat split; by vm_compute. Qed.

(** C7.  A row passes the city block exactly when no city is selected
    ([None] or the empty list) or its city is one of the selected ones;
    likewise for the status block.  With nothing selected the block
    returns its input. *)
Theorem membership_filters {F} (selected : option (list string))
    (df : frame F) (r : order F) :
  (r ∈ by_city selected df
   ↔ r ∈ df ∧ (selected = None ∨ selected = Some []
               ∨ ∃ c, city r = Some c ∧ c ∈ default [] selected))
  ∧ (r ∈ by_status selected df
     ↔ r ∈ df ∧ (selected = None ∨ selected = Some []
                 ∨ order_status r ∈ default [] selected))
  ∧ by_city None df = df ∧ by_city (Some []) df = df
  ∧ by_status None df = df ∧ by_status (Some []) df = df.
Proof.
  split; [|split; [|done]].
  - unfold by_city. destruct selected as [[|v vs]|]; simpl.
    + split; [by eauto|by intros [? _]].
    + rewrite list_elem_of_filter. unfold isin. split.
      * intros [Hin ?]. split; [done|]. do 2 right.
        destruct (city r) as [c|]; [|done].
        apply bool_decide_unpack in Hin. eauto.
      * intros [? [?|[?|(c & -> & Hin)]]]; [done..|].
        split; [|done]. by apply bool_decide_pack.
    + split; [by eauto|by intros [? _]].
  - unfold by_status. destruct selected as [[|v vs]|]; simpl.
    + split; [by eauto|by intros [? _]].
    + rewrite list_elem_of_filter, bool_decide_spec. split.
      * intros [Hin ?]. eauto.
      * by intros [? [?|[?|Hin]]].
    + split; [by eauto|by intros [? _]].
Qed.

(** C8.  Whatever the order in which the four blocks are run, the result
    is the frame [dff] of [update_dashboard], rows and row order alike. *)
Theorem filter_order_is_irrelevant {F} (start_date end_date : option Z)
    (selected_cities selected_statuses : option (list string))
    (blocks : list (frame F → frame F)) (orders : frame F) :
  blocks ≡ₚ filter_blocks start_date end_date selected_cities
              selected_statuses →
  run_blocks blocks orders
  = dff start_date end_date selected_cities selected_statuses orders.
Proof.
  intros Hperm. rewrite <- run_filter_blocks. symmetry.
  apply run_blocks_permutation; [done|].
  apply filter_blocks_are_mask_filters.
Qed.

(** City first, then the two dates, on the three-day table. *)
Lemma filter_order_is_irrelevant_witness :
  by_status None
    (by_end (iso_date "2024-01-02")
       (by_start (iso_date "2024-01-01")
          (by_city (Some ["Pune"]) three_days)))
  = dff (iso_date "2024-01-01") (iso_date "2024-01-02") (Some ["Pune"])
        None three_days.
Proof.
  apply (filter_order_is_irrelevant _ _ _ _
           [by_city (Some ["Pune"]); by_start (iso_date "2024-01-01");
            by_end (iso_date "2024-01-02"); by_status None]).
  unfold filter_blocks.
  etransitivity; [apply perm_swap|]. apply perm_skip, perm_swap.
Defined.

(** ** Loading and cleaning *)

Section LoadFacts.
Context `{Number F} `{Parsers F}.
Implicit Types (df : csv F) (tbl : frame F) (raw : raw_order F).

Lemma to_numeric_coerce_not_nan (c : cell F) (x : F) :
  to_numeric_coerce c = Some x → num_is_nan x = false.
Proof.
  assert (∀ y, not_nan y = Some x → num_is_nan x = false) as Hnot.
  { intros y. unfold not_nan.
    destruct (num_is_nan y) eqn:Hy; [done|]. by intros [= <-]. }
  destruct c as [|y|s]; simpl; [done|apply Hnot|].
  destruct (parse_number s) as [y|]; [apply Hnot|done].
Qed.

Lemma fillna_not_nan (c : cell F) :
  num_is_nan (fillna num_zero (to_numeric_coerce c)) = false.
Proof.
  destruct (to_numeric_coerce c) as [x|] eqn:Hc; simpl.
  - by eapply to_numeric_coerce_not_nan.
  - apply num_zero_not_nan.
Qed.

Lemma clean_Some (has_flag : bool) raw (t : Z) (r : order F) :
  clean has_flag raw t = Some r →
  order_date r = Some t
  ∧ order_value r = fillna num_zero (to_numeric_coerce (raw_order_value raw)).
Proof.
  unfold clean. intros Hclean.
  destruct (if has_flag then _ else _) as [flag|]; [|done].
  by injection Hclean as <-.
Qed.

Lemma load_data_rows df tbl :
  load_data df = Some tbl →
  Forall2 (λ rt r, order_date r = Some rt.2
                   ∧ order_value r
                     = fillna num_zero
                         (to_numeric_coerce (raw_order_value rt.1)))
          (dropna_order_date (rows df)) tbl.
Proof.
  unfold load_data. intros Hload. apply mapM_Some_1 in Hload.
  eapply Forall2_impl; [done|]. intros rt r. apply clean_Some.
Qed.

Lemma dropna_order_date_dates (rs : list (raw_order F)) :
  snd <$> dropna_order_date rs
  = omap (λ raw, to_datetime_coerce (raw_order_date raw)) rs.
Proof.
  unfold dropna_order_date. induction rs as [|raw rs IH]; [done|]. csimpl.
  destruct (to_datetime_coerce (raw_order_date raw)); csimpl; by rewrite IH.
Qed.

End LoadFacts.

Lemma dff_subseteq {F} start_date end_date selected_cities
    selected_statuses (orders : frame F) (r : order F) :
  r ∈ dff start_date end_date selected_cities selected_statuses orders →
  r ∈ orders.
Proof.
  assert (∀ block (df : frame F), mask_filter block → r ∈ block df → r ∈ df)
    as Hsub.
  { intros block df [mask ->]. rewrite list_elem_of_filter. tauto. }
  unfold dff. intros Hin.
  apply Hsub in Hin; [|apply mask_filter_by_status].
  apply Hsub in Hin; [|apply mask_filter_by_city].
  apply Hsub in Hin; [|apply mask_filter_by_end].
  by apply Hsub in Hin; [|apply mask_filter_by_start].
Qed.

(** C5, as the specification words it, fails: the refund of the sample
    file is still negative after cleaning. *)
Example refund_stays_negative :
  load_data sample_csv = Some sample_table
  ∧ order_value <$> sample_table
    = [float_of_int 10; PrimFloat.zero; PrimFloat.opp (float_of_int 5)]
  ∧ PrimFloat.ltb (PrimFloat.opp (float_of_int 5)) PrimFloat.zero = true.
Proof. repeat split; by vm_compute. Qed.

(** C5, amended.  After cleaning, [order_value] is never missing (NaN): it
    is the number in the cell, or the number that the text of the cell
    parses to, and 0 for a blank cell and for text that is no number.
    The sign of the number is kept. *)
Theorem order_value_is_never_missing `{Number F} `{Parsers F}
    (df : csv F) (tbl : frame F) :
  load_data df = Some tbl →
  Forall (λ r, num_is_nan (order_value r) = false) tbl
  ∧ order_value <$> tbl
    = (λ rt, default num_zero (to_numeric_coerce (raw_order_value rt.1)))
      <$> dropna_order_date (rows df).
Proof.
  intros Hload. apply load_data_rows in Hload.
  induction Hload as [|rt r rts tbl [_ Hvalue] _ [IHnan IHeq]].
  - by split.
  - split.
    + apply Forall_cons_2; [|done]. rewrite Hvalue. apply fillna_not_nan.
    + rewrite !fmap_cons. by rewrite Hvalue, IHeq.
Qed.

Lemma order_value_is_never_missing_witness :
  Forall (λ r, PrimFloat.is_nan (order_value r) = false) sample_table.
Proof.
  apply (proj1 (order_value_is_never_missing sample_csv sample_table
                  ltac:(by vm_compute))).
Defined.

(** C9.  The canonical table holds exactly the rows whose date parses,
    each with its timestamp: every row of the table has a date and is the
    cleaning of a row of the file whose date parsed, so a row whose date
    does not parse is dropped entirely and is no row of the table.  Every
    KPI and every aggregate is computed from a filtered view; the rows of
    a view are rows of the table and have a date, and the daily aggregate
    counts each of them that has an [order_id]: a dropped row is in none
    of them. *)
Theorem canonical_rows_have_dates `{Number F} `{Parsers F}
    (df : csv F) (tbl : frame F) :
  load_data df = Some tbl →
  order_date <$> tbl
  = Some <$> omap (λ raw, to_datetime_coerce (raw_order_date raw)) (rows df)
  ∧ Forall (λ r, is_Some (order_date r)) tbl
  ∧ (∀ r, r ∈ tbl →
          ∃ raw t, raw ∈ rows df
                   ∧ to_datetime_coerce (raw_order_date raw) = Some t
                   ∧ clean (has_is_repeat_customer df) raw t = Some r)
  ∧ ∀ start_date end_date selected_cities selected_statuses,
      let view := dff start_date end_date selected_cities selected_statuses
                      tbl in
      (∀ r, r ∈ view → r ∈ tbl ∧ is_Some (order_date r))
      ∧ sum_counts
          (update_dashboard start_date end_date selected_cities
             selected_statuses tbl).2
        = length (omap order_id view).
Proof.
  intros Hload.
  assert (Forall (λ r, is_Some (order_date r)) tbl) as Hdated.
  { apply load_data_rows in Hload.
    induction Hload as [|rt r rts tbl [Hdate _] _ IH]; [done|].
    apply Forall_cons_2; [by rewrite Hdate|done]. }
  split; [|split; [done|split]].
  - clear Hdated.
    rewrite <- dropna_order_date_dates. apply load_data_rows in Hload.
    induction Hload as [|rt r rts tbl [Hdate _] _ IH]; [done|].
    rewrite !fmap_cons. by rewrite Hdate, IH.
  - intros r Hr. unfold load_data in Hload. apply mapM_Some_1 in Hload.
    apply list_elem_of_lookup in Hr as [i Hi].
    destruct (Forall2_lookup_r _ _ _ _ _ Hload Hi) as ([raw t] & Hrt & Hclean).
    apply list_elem_of_lookup_2 in Hrt.
    unfold dropna_order_date in Hrt.
    apply list_elem_of_omap in Hrt as (raw' & Hraw & Hparse).
    destruct (to_datetime_coerce (raw_order_date raw')) as [t'|] eqn:Ht;
      [|done].
    simpl in Hparse. injection Hparse as -> ->. eauto.
  - intros start_date end_date selected_cities selected_statuses view.
    assert (∀ r, r ∈ view → r ∈ tbl ∧ is_Some (order_date r)) as Hview.
    { intros r Hr. apply dff_subseteq in Hr. split; [done|].
      by eapply (proj1 (Forall_forall _ _)) in Hdated. }
    split; [done|]. unfold update_dashboard. simpl. fold view.
    rewrite sum_counts_daily, filter_dated; [done|].
    apply Forall_forall. intros r Hr. by apply Hview.
Qed.

Lemma canonical_rows_have_dates_witness :
  Forall (λ r, is_Some (order_date r)) sample_table.
Proof.
  apply (proj1 (proj2 (canonical_rows_have_dates sample_csv sample_table
                         ltac:(by vm_compute)))).
Defined.

(** The rows A2 and A3 of the sample file, whose dates do not parse, are
    not in the table. *)
Example sample_table_ids :
  order_id <$> sample_table = [Some "A1"; Some "A4"; Some "A5"].
Proof. by vm_compute. Qed.

(** * Further properties of the filter block *)

Section FilterLaws.
Context {F : Type}.
Implicit Types (df orders : frame F) (r : order F).

Lemma mask_filter_compose (f g : frame F → frame F) :
  mask_filter f → mask_filter g → mask_filter (λ df, f (g df)).
Proof.
  intros [mf Hf] [mg Hg]. exists (λ r, mf r && mg r). intros df.
  rewrite Hf, Hg, list_filter_filter. apply list_filter_iff. intros r.
  by rewrite andb_True.
Qed.

Lemma mask_filter_dff start_date end_date selected_cities selected_statuses :
  mask_filter (F:=F)
    (dff start_date end_date selected_cities selected_statuses).
Proof.
  unfold dff.
  apply (mask_filter_compose (by_status _)); [apply mask_filter_by_status|].
  apply (mask_filter_compose (by_city _)); [apply mask_filter_by_city|].
  apply (mask_filter_compose (by_end _)); [apply mask_filter_by_end|].
  apply mask_filter_by_start.
Qed.

Lemma elem_of_by_start start_date df r :
  r ∈ by_start start_date df
  ↔ r ∈ df ∧ ∀ d, start_date = Some d →
                  ∃ t, order_date r = Some t ∧ to_datetime d ≤ t.
Proof.
  destruct start_date as [d|]; simpl; [|by intuition].
  rewrite list_elem_of_filter. unfold ge_mask. split.
  - intros [Hmask Hin]. split; [done|]. intros ? [= <-].
    destruct (order_date r) as [t|]; [|done].
    apply bool_decide_unpack in Hmask. eauto.
  - intros [Hin Hd]. split; [|done].
    destruct (Hd d eq_refl) as (t & -> & Hle). by apply bool_decide_pack.
Qed.

Lemma elem_of_by_end end_date df r :
  r ∈ by_end end_date df
  ↔ r ∈ df ∧ ∀ d, end_date = Some d →
                  ∃ t, order_date r = Some t ∧ t ≤ to_datetime d.
Proof.
  destruct end_date as [d|]; simpl; [|by intuition].
  rewrite list_elem_of_filter. unfold le_mask. split.
  - intros [Hmask Hin]. split; [done|]. intros ? [= <-].
    destruct (order_date r) as [t|]; [|done].
    apply bool_decide_unpack in Hmask. eauto.
  - intros [Hin Hd]. split; [|done].
    destruct (Hd d eq_refl) as (t & -> & Hle). by apply bool_decide_pack.
Qed.

Lemma elem_of_by_city selected_cities df r :
  r ∈ by_city selected_cities df
  ↔ r ∈ df ∧ (truthy selected_cities = true →
              ∃ c, city r = Some c ∧ c ∈ default [] selected_cities).
Proof.
  unfold by_city. destruct (truthy selected_cities); [|by intuition].
  rewrite list_elem_of_filter. unfold isin. split.
  - intros [Hmask Hin]. split; [done|]. intros _.
    destruct (city r) as [c|]; [|done].
    apply bool_decide_unpack in Hmask. eauto.
  - intros [Hin Hc]. split; [|done].
    destruct (Hc eq_refl) as (c & -> & Hsel). by apply bool_decide_pack.
Qed.

Lemma elem_of_by_status selected_statuses df r :
  r ∈ by_status selected_statuses df
  ↔ r ∈ df ∧ (truthy selected_statuses = true →
              order_status r ∈ default [] selected_statuses).
Proof.
  unfold by_status. destruct (truthy selected_statuses); [|by intuition].
  rewrite list_elem_of_filter. unfold isin. rewrite bool_decide_spec.
  by intuition.
Qed.

(** The filter block is a conjunction: a row is in [dff] exactly when it
    is a row of the table and passes each of the bounds and selections
    that were supplied. *)
Theorem dff_is_the_conjunction start_date end_date selected_cities
    selected_statuses orders r :
  r ∈ dff start_date end_date selected_cities selected_statuses orders
  ↔ r ∈ orders
    ∧ (∀ d, start_date = Some d →
            ∃ t, order_date r = Some t ∧ to_datetime d ≤ t)
    ∧ (∀ d, end_date = Some d →
            ∃ t, order_date r = Some t ∧ t ≤ to_datetime d)
    ∧ (truthy selected_cities = true →
       ∃ c, city r = Some c ∧ c ∈ default [] selected_cities)
    ∧ (truthy selected_statuses = true →
       order_status r ∈ default [] selected_statuses).
Proof.
  unfold dff.
  rewrite elem_of_by_status, elem_of_by_city, elem_of_by_end,
    elem_of_by_start.
  tauto.
Qed.

(** Filtering twice with the same parameters is filtering once. *)
Theorem dff_idempotent start_date end_date selected_cities
    selected_statuses orders :
  dff start_date end_date selected_cities selected_statuses
    (dff start_date end_date selected_cities selected_statuses orders)
  = dff start_date end_date selected_cities selected_statuses orders.
Proof.
  destruct (mask_filter_dff start_date end_date selected_cities
              selected_statuses) as [mask Hdff].
  rewrite !Hdff, list_filter_filter. apply list_filter_iff. tauto.
Qed.

(** The filter block only drops rows: what it returns is the table with
    some rows left out, the others unchanged and in their order. *)
Theorem dff_sublist start_date end_date selected_cities selected_statuses
    orders :
  dff start_date end_date selected_cities selected_statuses orders
  `sublist_of` orders.
Proof.
  destruct (mask_filter_dff start_date end_date selected_cities
              selected_statuses) as [mask ->].
  apply sublist_filter.
Qed.

(** An end date before the start date is not rejected: the view is
    empty. *)
Theorem dff_end_before_start (start_date end_date : Z) selected_cities
    selected_statuses orders :
  end_date < start_date →
  dff (Some start_date) (Some end_date) selected_cities selected_statuses
      orders = [].
Proof.
  intros Hlt. apply elem_of_nil_inv. intros r. unfold dff.
  rewrite elem_of_by_status, elem_of_by_city, elem_of_by_end,
    elem_of_by_start.
  intros ([[[_ Hs] He] _] & _).
  destruct (Hs _ eq_refl) as (t & Ht & Hst).
  destruct (He _ eq_refl) as (t' & Ht' & Hte).
  rewrite Ht in Ht'. injection Ht' as <-.
  unfold to_datetime in *. assert (0 < ns_per_day) by done. nia.
Qed.

End FilterLaws.

Lemma dff_end_before_start_witness :
  dff (iso_date "2024-01-03") (iso_date "2024-01-01") None None three_days
  = [].
Proof.
  apply (dff_end_before_start 19725 19723 None None three_days). lia.
Defined.

(** Filtering never raises a count: the filtered view has at most as many
    rows, distinct orders, distinct customers and distinct repeat
    customers as the table. *)
Theorem filtered_counts_le `{Number F} start_date end_date selected_cities
    selected_statuses (orders : frame F) :
  let view := dff start_date end_date selected_cities selected_statuses
                  orders in
  (length view ≤ length orders)%nat
  ∧ (total_orders (compute_kpis view)
     ≤ total_orders (compute_kpis orders))%nat
  ∧ (unique_customers view ≤ unique_customers orders)%nat
  ∧ (repeat_customers view ≤ repeat_customers orders)%nat.
Proof.
  intros view.
  assert (∀ r, r ∈ view → r ∈ orders) as Hsub
    by (intros r; apply dff_subseteq).
  split.
  { subst view.
    destruct (mask_filter_dff (F:=F) start_date end_date selected_cities
                selected_statuses) as [mask ->].
    apply length_filter. }
  split; [|split]; apply nunique_mono; intros x;
    rewrite !list_elem_of_fmap; intros (r & -> & Hr).
  - eauto.
  - eauto.
  - apply list_elem_of_filter in Hr as [Hflag Hr].
    exists r. split; [done|]. apply list_elem_of_filter. eauto.
Qed.

(** * Further properties of the KPIs *)

Lemma omap_all_Some {A B} (f : A → option B) (l : list A) :
  Forall (λ x, is_Some (f x)) l → Some <$> omap f l = f <$> l.
Proof.
  induction 1 as [|x l [y Hy] _ IH]; [done|].
  csimpl. rewrite Hy. csimpl. by rewrite IH.
Qed.

Lemma omap_nil_iff {A B} (f : A → option B) (l : list A) :
  omap f l = [] ↔ Forall (λ x, f x = None) l.
Proof.
  induction l as [|x l IH]; csimpl; [by split|].
  destruct (f x) as [y|] eqn:Hx; csimpl.
  - split; [done|]. intros Hall. apply Forall_cons_1 in Hall as [Hnone _].
    by rewrite Hx in Hnone.
  - rewrite IH. split; [by constructor|]. by intros [_ ?]%Forall_cons_1.
Qed.

(** [total_orders] counts distinct order ids, not rows.  It is the length
    of every duplicate-free list of the ids that occur in the view; it is
    at most the number of rows that have an id, itself at most the number
    of rows, and it reaches that number exactly when no id occurs on two
    rows.  It is 0 exactly when no row has an [order_id], and then [aov]
    and [cancellation_rate] are 0 whatever the rows are worth and whatever
    their status is. *)
Theorem total_orders_counts_distinct_ids `{Number F} (df : frame F) :
  let total_orders := total_orders (compute_kpis df) in
  let ids := omap order_id df in
  (∀ distinct, NoDup distinct → (∀ x, x ∈ distinct ↔ x ∈ ids) →
               total_orders = length distinct)
  ∧ (total_orders ≤ length ids ≤ length df)%nat
  ∧ (total_orders = length ids ↔ NoDup ids)
  ∧ (total_orders = 0%nat ↔ Forall (λ r, order_id r = None) df)
  ∧ (Forall (λ r, order_id r = None) df →
     aov (compute_kpis df) = num_zero
     ∧ cancellation_rate (compute_kpis df) = num_zero).
Proof.
  intros total_orders ids.
  assert (total_orders = length (remove_dups ids)) as Horders.
  { unfold total_orders, ids. rewrite total_orders_eq. unfold nunique.
    by rewrite omap_id_fmap. }
  assert (total_orders = 0%nat ↔ Forall (λ r, order_id r = None) df)
    as Hzero.
  { rewrite Horders. unfold ids. rewrite <- omap_nil_iff. split.
    - intros Hlen. apply length_zero_iff_nil in Hlen.
      destruct (omap order_id df) as [|x l]; [done|].
      assert (x ∈ remove_dups (x :: l)) as Hin
        by (apply elem_of_remove_dups; left).
      rewrite Hlen in Hin. by apply elem_of_nil in Hin.
    - by intros ->. }
  split; [|split; [|split; [|split]]].
  - intros distinct Hnodup Hdistinct. rewrite Horders.
    apply Permutation_length, NoDup_Permutation;
      [apply NoDup_remove_dups|done|].
    intros x. by rewrite elem_of_remove_dups, Hdistinct.
  - rewrite Horders. split; [apply remove_dups_length_le|].
    unfold ids. clear. induction df as [|r df IH]; csimpl; [done|].
    destruct (order_id r); simpl; lia.
  - rewrite Horders. apply remove_dups_length_eq.
  - done.
  - intros Hnone. apply Hzero in Hnone. unfold total_orders in Hnone.
    rewrite total_orders_eq in Hnone.
    unfold compute_kpis; simpl. rewrite Hnone.
    by rewrite !decide_False by lia.
Qed.

Lemma float_zero_percentage (u : nat) :
  (0 < u)%nat → Z.of_nat u < 2 ^ 53 →
  PrimFloat.mul (PrimFloat.div (float_of_int (Z.of_nat 0))
                               (float_of_int (Z.of_nat u)))
                (float_of_int 100) = PrimFloat.zero.
Proof.
  intros Hu Hsmall. apply Prim2SF_inj.
  rewrite FloatAxioms.mul_spec, FloatAxioms.div_spec.
  rewrite (float_of_int_SF (Z.of_nat u)) by lia.
  destruct (binary_normalize_int (Z.of_nat u) ltac:(lia))
    as (mu & eu & -> & _).
  reflexivity.
Qed.

Lemma nunique_le (col : list (option string)) :
  (nunique col ≤ length col)%nat.
Proof.
  unfold nunique. etransitivity; [apply remove_dups_length_le|].
  induction col as [|[x|] col IH]; csimpl; lia.
Qed.

Lemma repeat_customers_zero `(df : frame F) :
  Forall (λ r, is_repeat_customer r ≠ 1) df → repeat_customers df = 0%nat.
Proof.
  intros Hflags. unfold repeat_customers.
  replace (filter (λ r, is_repeat_customer r = 1) df) with (@nil (order F));
    [done|].
  symmetry. apply elem_of_nil_inv. intros r.
  rewrite list_elem_of_filter. intros [Hflag Hr].
  by eapply (proj1 (Forall_forall _ _)) in Hflags.
Qed.

Lemma float_repeat_rate_zero (df : frame float) :
  repeat_customers df = 0%nat →
  Z.of_nat (unique_customers df) < 2 ^ 53 →
  repeat_rate (compute_kpis df) = PrimFloat.zero.
Proof.
  intros Hzero Hsmall. unfold compute_kpis; simpl. rewrite Hzero.
  destruct (decide (0 < unique_customers df)%nat); [|done].
  by apply float_zero_percentage.
Qed.

(** Without a row flagged as repeat, [repeat_rate] is 0 on binary64: the
    quotient [0 / unique_customers] and its product with 100 are exact. *)
Theorem repeat_rate_without_repeat_rows (df : frame float) :
  Forall (λ r, is_repeat_customer r ≠ 1) df →
  Z.of_nat (unique_customers df) < 2 ^ 53 →
  repeat_rate (compute_kpis df) = PrimFloat.zero.
Proof.
  intros Hflags Hsmall.
  apply float_repeat_rate_zero; [|done]. by apply repeat_customers_zero.
Qed.

Lemma repeat_rate_without_repeat_rows_witness :
  repeat_rate (compute_kpis seven_orders) = PrimFloat.zero.
Proof.
  apply (repeat_rate_without_repeat_rows seven_orders).
  - by_evaluation.
  - by vm_compute.
Defined.

Lemma nunique_own_ids `(df : frame F) :
  Forall (λ r, is_Some (order_id r)) df →
  NoDup (order_id <$> df) →
  nunique (order_id <$> df) = length df.
Proof.
  intros Hids Hnodup. unfold nunique. rewrite omap_id_fmap.
  rewrite <- (omap_all_Some order_id df Hids) in Hnodup.
  apply NoDup_fmap in Hnodup; [|apply _].
  rewrite (proj2 (remove_dups_length_eq _) Hnodup).
  rewrite <- (length_fmap Some), (omap_all_Some order_id df Hids).
  apply length_fmap.
Qed.

(** When every row has an [order_id] of its own, the cancelled rows are
    among the orders, and [cancellation_rate] on binary64 lies between 0
    and 100.  (With an [order_id] on several rows it can exceed 100.) *)
Theorem cancellation_rate_between_0_and_100 (df : frame float) :
  Forall (λ r, is_Some (order_id r)) df →
  NoDup (order_id <$> df) →
  Z.of_nat (length df) < 2 ^ 53 →
  PrimFloat.leb PrimFloat.zero (cancellation_rate (compute_kpis df)) = true
  ∧ PrimFloat.leb (cancellation_rate (compute_kpis df)) (float_of_int 100)
    = true.
Proof.
  intros Hids Hnodup Hsmall.
  pose proof (nunique_own_ids df Hids Hnodup) as Horders.
  unfold compute_kpis; simpl. rewrite cancelled_rows_eq, Horders.
  destruct (decide (0 < length df)%nat) as [Hpos|_]; [|by split].
  apply float_percentage_bounds; [apply length_filter|done|done].
Qed.

Lemma cancellation_rate_between_0_and_100_witness :
  PrimFloat.leb (cancellation_rate (compute_kpis three_days))
                (float_of_int 100) = true.
Proof.
  apply (cancellation_rate_between_0_and_100 three_days).
  - by_evaluation.
  - by_evaluation.
  - by vm_compute.
Defined.

(** * Further properties of the daily order volume *)

Lemma bump_keys (k : Z) (n : nat) (tbl : list (Z * nat)) (x : Z) :
  x ∈ (bump k n tbl).*1 ↔ x = k ∨ x ∈ tbl.*1.
Proof.
  induction tbl as [|[k' c] tbl IH]; simpl.
  - rewrite list_elem_of_singleton, elem_of_nil. tauto.
  - repeat case_decide; csimpl; rewrite !elem_of_cons; try rewrite IH;
      intuition congruence.
Qed.

Lemma bump_sorted (k : Z) (n : nat) (tbl : list (Z * nat)) :
  StronglySorted Z.lt tbl.*1 → StronglySorted Z.lt (bump k n tbl).*1.
Proof.
  induction tbl as [|[k' c] tbl IH]; simpl; intros Hsorted.
  - repeat constructor.
  - apply StronglySorted_inv in Hsorted as [Hrest Hhead].
    repeat case_decide; csimpl.
    + constructor; [by constructor|].
      constructor; [done|]. eapply Forall_impl; [done|]. simpl. lia.
    + by constructor.
    + constructor; [by apply IH|].
      apply Forall_forall. intros x [->|Hx]%bump_keys; [lia|].
      by eapply (proj1 (Forall_forall _ _)) in Hhead.
Qed.

Lemma on_day_absent {A} (k : Z) (rows : list (Z * A)) :
  k ∉ rows.*1 → on_day k rows = None.
Proof.
  induction rows as [|[k' c] rows IH]; simpl; [done|].
  rewrite not_elem_of_cons. intros [Hne Hrest]. by rewrite decide_False, IH.
Qed.

Lemma orders_on_bump (k k' : Z) (n : nat) (tbl : list (Z * nat)) :
  StronglySorted Z.lt tbl.*1 →
  on_day k (bump k' n tbl)
  = if decide (k = k') then Some (default 0 (on_day k tbl) + n)%nat
    else on_day k tbl.
Proof.
  induction tbl as [|[k2 c] tbl IH]; simpl; intros Hsorted.
  - by destruct (decide (k = k')).
  - apply StronglySorted_inv in Hsorted as [Hrest Hhead].
    destruct (decide (k' < k2)) as [Hlt|Hge]; simpl.
    + destruct (decide (k = k')) as [->|Hne]; [|done].
      rewrite decide_False by lia. rewrite on_day_absent; [done|].
      intros Hin. eapply (proj1 (Forall_forall _ _)) in Hhead; [|done]. lia.
    + destruct (decide (k' = k2)) as [->|Hne2]; simpl.
      * by destruct (decide (k = k2)).
      * rewrite IH by done.
        destruct (decide (k = k2)) as [->|]; [|done].
        by rewrite decide_False by lia.
Qed.

Lemma daily_sorted `(df : frame F) :
  StronglySorted Z.lt (fig_orders_volume_trend df).*1.
Proof.
  induction df as [|r df IH]; simpl; [constructor|].
  destruct (order_date r); [by apply bump_sorted|done].
Qed.

Lemma orders_on_daily `(df : frame F) (k : Z) (c : nat) :
  on_day k (fig_orders_volume_trend df) = Some c
  ↔ (∃ r, r ∈ df ∧ date <$> order_date r = Some k)
    ∧ c = length (filter (λ r, date <$> order_date r = Some k
                               ∧ is_Some (order_id r)) df).
Proof.
  revert k c. induction df as [|r df IH]; intros k c.
  - simpl. split; [done|]. by intros [(r & Hr%elem_of_nil & _) _].
  - rewrite filter_cons. simpl fig_orders_volume_trend.
    destruct (order_date r) as [t|] eqn:Ht; simpl.
    + rewrite orders_on_bump by apply daily_sorted.
      destruct (decide (k = date t)) as [->|Hne].
      * assert (default 0%nat (on_day (date t) (fig_orders_volume_trend df))
                = length (filter (λ r, date <$> order_date r = Some (date t)
                                       ∧ is_Some (order_id r)) df)) as Hcount.
        { destruct (on_day (date t) (fig_orders_volume_trend df))
            as [c'|] eqn:Hon.
          - by apply IH in Hon as [_ ->].
          - simpl. symmetry. apply length_zero_iff_nil, elem_of_nil_inv.
            intros r' [[Hday _] Hr']%list_elem_of_filter.
            assert (is_Some (on_day (date t) (fig_orders_volume_trend df)))
              as [? Hsome]; [|by rewrite Hon in Hsome].
            eexists. apply IH. eauto. }
        rewrite Hcount. split.
        -- intros [= <-]. split; [exists r; rewrite Ht; split; [left|done]|].
           destruct (order_id r) eqn:Hid.
           ++ rewrite decide_True by eauto. simpl. lia.
           ++ rewrite decide_False by (intros [_ [? ?]]; done). lia.
        -- intros [_ ->]. f_equal.
           destruct (order_id r) eqn:Hid.
           ++ rewrite decide_True by eauto. simpl. lia.
           ++ rewrite decide_False by (intros [_ [? ?]]; done). lia.
      * rewrite IH, decide_False by (intros [[= ?] _]; done).
        split; intros [(r' & Hr' & Hday) ->]; (split; [|done]).
        -- exists r'. split; [by right|done].
        -- apply elem_of_cons in Hr' as [->|Hr']; [|eauto].
           rewrite Ht in Hday. simpl in Hday. congruence.
    + rewrite IH. try rewrite decide_False by (intros [[=] _]).
      split; intros [(r' & Hr' & Hday) ->]; (split; [|done]).
      * exists r'. split; [by right|done].
      * apply elem_of_cons in Hr' as [->|Hr']; [|eauto].
        by rewrite Ht in Hday.
Qed.

(** [daily] is the group-by of the source: one row per calendar day on
    which the view has an order, in ascending order of the days, and the
    count of a day is the number of that day's rows that have an
    [order_id]. *)
Theorem daily_is_the_groupby `(df : frame F) :
  StronglySorted Z.lt (fig_orders_volume_trend df).*1
  ∧ ∀ k c,
      on_day k (fig_orders_volume_trend df) = Some c
      ↔ (∃ r, r ∈ df ∧ date <$> order_date r = Some k)
        ∧ c = length (filter (λ r, date <$> order_date r = Some k
                                   ∧ is_Some (order_id r)) df).
Proof. split; [apply daily_sorted|apply orders_on_daily]. Qed.

(** The chart of a filtered view has no day outside the selected range:
    each of its days is the start date, the end date or a day between
    them. *)
Theorem daily_within_the_date_range {F} (start_date end_date : Z)
    (selected_cities selected_statuses : option (list string))
    (orders : frame F) (k : Z) (c : nat) :
  on_day k
    (fig_orders_volume_trend
       (dff (Some start_date) (Some end_date) selected_cities
            selected_statuses orders)) = Some c →
  start_date ≤ k ≤ end_date.
Proof.
  intros Hon. apply orders_on_daily in Hon as [(r & Hr & Hday) _].
  unfold dff in Hr.
  rewrite elem_of_by_status, elem_of_by_city, elem_of_by_end,
    elem_of_by_start in Hr.
  destruct Hr as ([[[_ Hs] He] _] & _).
  destruct (Hs _ eq_refl) as (t & Ht & Hst).
  destruct (He _ eq_refl) as (t' & Ht' & Hte).
  rewrite Ht in Ht', Hday. injection Ht' as <-. injection Hday as <-.
  apply to_datetime_le_iff in Hst. apply le_to_datetime_iff in Hte.
  split; [done|]. destruct Hte as [Hlt | ->]; [lia|].
  unfold date, to_datetime. rewrite Z.div_mul by done. lia.
Qed.

Lemma daily_within_the_date_range_witness :
  on_day 19724
    (fig_orders_volume_trend
       (dff (Some 19723) (Some 19724) None None three_days)) = Some 1%nat
  ∧ 19723 ≤ 19724 ≤ 19724.
Proof.
  split; [by vm_compute|].
  apply (daily_within_the_date_range 19723 19724 None None three_days
           19724 1).
  by vm_compute.
Defined.

(** * The customer pie *)

Lemma value_counts_absent (col : list string) (key : string) :
  key ∉ col → value_counts col !! key = None.
Proof.
  induction col as [|s col IH]; simpl; [by rewrite lookup_empty|].
  rewrite not_elem_of_cons. intros [Hne Hrest].
  by rewrite lookup_insert_ne, IH.
Qed.

Lemma customer_type_count `(df : frame F) (flag : Z) (label : string) :
  customer_type flag = Some label →
  (∀ flag', customer_type flag' = Some label → flag' = flag) →
  length (filter (λ s, s = label)
            (omap (λ r, customer_type (is_repeat_customer r)) df))
  = length (filter (λ r, is_repeat_customer r = flag) df).
Proof.
  intros Hlabel Honly. induction df as [|r df IH]; [done|].
  rewrite (filter_cons (λ r, is_repeat_customer r = flag)). csimpl.
  destruct (decide (is_repeat_customer r = flag)) as [->|Hne].
  - rewrite Hlabel. csimpl. rewrite filter_cons, decide_True by done.
    simpl. by rewrite IH.
  - destruct (customer_type (is_repeat_customer r)) as [s|] eqn:Hs; csimpl;
      [|done].
    rewrite filter_cons, decide_False; [done|].
    intros ->. by apply Hne, Honly.
Qed.

(** The pie has a slice for the rows flagged 0 and one for the rows
    flagged 1, each with its number of rows, and no other slice: a row
    with any other flag is in no slice. *)
Theorem customer_pie_slices `(df : frame F) :
  get (fig_customer_behavior df) "New Customer" 0
  = length (filter (λ r, is_repeat_customer r = 0) df)
  ∧ get (fig_customer_behavior df) "Repeat Customer" 0
    = length (filter (λ r, is_repeat_customer r = 1) df)
  ∧ ∀ label, label ≠ "New Customer" → label ≠ "Repeat Customer" →
             fig_customer_behavior df !! label = None.
Proof.
  unfold fig_customer_behavior. rewrite !get_value_counts.
  split; [|split].
  - apply customer_type_count; [done|].
    intros flag. unfold customer_type. by repeat case_decide.
  - apply customer_type_count; [done|].
    intros flag. unfold customer_type. by repeat case_decide.
  - intros label Hnew Hrepeat. apply value_counts_absent.
    rewrite list_elem_of_omap. intros (r & _ & Htype).
    unfold customer_type in Htype. repeat case_decide; congruence.
Qed.

(** * The controls of the layout *)

Section LayoutFacts.
Context {F : Type}.
Implicit Types (orders : frame F) (r : order F).

Lemma filter_all {A} (P : A → Prop) `{∀ x, Decision (P x)} (l : list A) :
  filter P l = l ↔ Forall P l.
Proof.
  induction l as [|x l IH]; [by split|].
  rewrite filter_cons. destruct (decide (P x)) as [HP|HP].
  - rewrite Forall_cons. split.
    + intros [= Heq]. split; [done|]. by apply IH.
    + intros [_ Hall]. f_equal. by apply IH.
  - split.
    + intros Heq. pose proof (length_filter P l) as Hlen.
      rewrite Heq in Hlen. simpl in Hlen. lia.
    + by intros [? _]%Forall_cons_1.
Qed.

Lemma foldr_min_spec (t : Z) (ts : list Z) :
  foldr Z.min t ts ∈ t :: ts ∧ Forall (λ x, foldr Z.min t ts ≤ x) (t :: ts).
Proof.
  induction ts as [|x ts [IHin IHle]]; simpl.
  - split; [left|]. by repeat constructor.
  - apply Forall_cons_1 in IHle as [Ht Hts]. split.
    + destruct (Z.min_spec x (foldr Z.min t ts)) as [[_ ->]|[_ ->]].
      * right; left.
      * apply elem_of_cons in IHin as [->|?]; [left|right; by right].
    + repeat apply Forall_cons_2; [lia|lia|].
      eapply Forall_impl; [done|]. simpl. lia.
Qed.

Lemma foldr_max_spec (t : Z) (ts : list Z) :
  foldr Z.max t ts ∈ t :: ts ∧ Forall (λ x, x ≤ foldr Z.max t ts) (t :: ts).
Proof.
  induction ts as [|x ts [IHin IHle]]; simpl.
  - split; [left|]. by repeat constructor.
  - apply Forall_cons_1 in IHle as [Ht Hts]. split.
    + destruct (Z.max_spec x (foldr Z.max t ts)) as [[_ ->]|[_ ->]].
      * apply elem_of_cons in IHin as [->|?]; [left|right; by right].
      * right; left.
    + repeat apply Forall_cons_2; [lia|lia|].
      eapply Forall_impl; [done|]. simpl. lia.
Qed.

Lemma min_order_date_spec orders (m : Z) :
  min_order_date orders = Some m →
  (∃ r, r ∈ orders ∧ order_date r = Some m)
  ∧ ∀ r t, r ∈ orders → order_date r = Some t → m ≤ t.
Proof.
  unfold min_order_date.
  destruct (omap order_date orders) as [|t ts] eqn:Hdates; [done|].
  intros [= <-]. destruct (foldr_min_spec t ts) as [Hin Hle].
  rewrite <- Hdates in Hin, Hle. split.
  - apply list_elem_of_omap in Hin as (r & ? & ?). eauto.
  - intros r t' Hr Ht'. eapply (proj1 (Forall_forall _ _)) in Hle; [done|].
    apply list_elem_of_omap. eauto.
Qed.

Lemma max_order_date_spec orders (m : Z) :
  max_order_date orders = Some m →
  (∃ r, r ∈ orders ∧ order_date r = Some m)
  ∧ ∀ r t, r ∈ orders → order_date r = Some t → t ≤ m.
Proof.
  unfold max_order_date.
  destruct (omap order_date orders) as [|t ts] eqn:Hdates; [done|].
  intros [= <-]. destruct (foldr_max_spec t ts) as [Hin Hle].
  rewrite <- Hdates in Hin, Hle. split.
  - apply list_elem_of_omap in Hin as (r & ? & ?). eauto.
  - intros r t' Hr Ht'. eapply (proj1 (Forall_forall _ _)) in Hle; [done|].
    apply list_elem_of_omap. eauto.
Qed.

Lemma to_datetime_date_le (t : Z) : to_datetime (date t) ≤ t.
Proof. by apply to_datetime_le_iff. Qed.

(** The date range that the picker starts with.  Its start drops no row
    of a table whose rows all have a date.  Its end drops rows unless the
    latest order was placed at midnight sharp: only then does the
    default range show the whole table. *)
Theorem default_date_range orders :
  Forall (λ r, is_Some (order_date r)) orders →
  by_start (date_range_start orders) orders = orders
  ∧ (dff (date_range_start orders) (date_range_end orders) None None orders
     = orders
     ↔ ∀ m, max_order_date orders = Some m → m = to_datetime (date m)).
Proof.
  intros Hdated.
  assert (by_start (date_range_start orders) orders = orders) as Hstart.
  { unfold date_range_start, by_start.
    destruct (min_order_date orders) as [m|] eqn:Hmin; simpl; [|done].
    apply filter_all, Forall_forall. intros r Hr.
    apply min_order_date_spec in Hmin as [_ Hle].
    eapply (proj1 (Forall_forall _ _)) in Hdated as [t Ht]; [|done].
    unfold ge_mask. rewrite Ht. apply bool_decide_pack.
    pose proof (to_datetime_date_le m). specialize (Hle r t Hr Ht). lia. }
  split; [done|].
  unfold dff, by_status, by_city, truthy. rewrite Hstart.
  unfold date_range_end, by_end.
  destruct (max_order_date orders) as [m|] eqn:Hmax; simpl;
    [|by split; [intros _ ?|]].
  apply max_order_date_spec in Hmax as [(r & Hr & Hm) Hle].
  rewrite filter_all, Forall_forall. split.
  - intros Hall ? [= <-]. specialize (Hall r Hr). unfold le_mask in Hall.
    rewrite Hm in Hall. apply bool_decide_unpack in Hall.
    pose proof (to_datetime_date_le m). lia.
  - intros Hmid r' Hr'.
    eapply (proj1 (Forall_forall _ _)) in Hdated as [t Ht]; [|done].
    unfold le_mask. rewrite Ht. apply bool_decide_pack.
    rewrite <- (Hmid m eq_refl). eauto.
Qed.

Lemma elem_of_unique (col : list (option string)) (v : option string) :
  v ∈ unique col ↔ v ∈ col.
Proof.
  induction col as [|w col IH]; simpl; [done|].
  rewrite !elem_of_cons, list_elem_of_filter, IH.
  destruct (decide (v = w)); intuition.
Qed.

Lemma NoDup_unique (col : list (option string)) : NoDup (unique col).
Proof.
  induction col as [|w col IH]; simpl; [constructor|].
  apply NoDup_cons. split; [|by apply NoDup_filter].
  rewrite list_elem_of_filter. by intros [? _].
Qed.

(** The city dropdown offers each city of the table once.  On a table
    whose rows all have a city, selecting every offered city shows the
    same rows as selecting none. *)
Theorem city_selector_offers_every_city orders :
  NoDup (city_selector orders)
  ∧ (∀ c, c ∈ city_selector orders ↔ ∃ r, r ∈ orders ∧ city r = c)
  ∧ (Forall (λ r, is_Some (city r)) orders →
     by_city (Some (omap id (city_selector orders))) orders = orders).
Proof.
  unfold city_selector. split; [apply NoDup_unique|]. split.
  - intros c. rewrite elem_of_unique, list_elem_of_fmap.
    split; [intros (r & -> & Hr)|intros (r & Hr & <-)]; eauto.
  - intros Hcities. unfold by_city.
    destruct (truthy _); [|done]. simpl.
    apply filter_all, Forall_forall. intros r Hr.
    eapply (proj1 (Forall_forall _ _)) in Hcities as [c Hc]; [|done].
    unfold isin. rewrite Hc. apply bool_decide_pack.
    apply list_elem_of_omap. exists (Some c). split; [|done].
    apply elem_of_unique, list_elem_of_fmap. eauto.
Qed.

End LayoutFacts.

Lemma default_date_range_witness :
  by_start (date_range_start three_days) three_days = three_days.
Proof.
  refine (proj1 (default_date_range three_days _)). by_evaluation.
Defined.

Lemma city_selector_offers_every_city_witness :
  by_city (Some (omap id (city_selector three_days))) three_days
  = three_days.
Proof.
  refine (proj2 (proj2 (city_selector_offers_every_city three_days)) _).
  by_evaluation.
Defined.

(** * Further properties of loading *)

Section LoadLaws.
Context `{Number F} `{Parsers F}.
Implicit Types (df : csv F) (tbl : frame F) (raw : raw_order F).

Lemma dropna_order_date_rows (rs : list (raw_order F)) :
  (dropna_order_date rs).*1
  = filter (λ raw, is_Some (to_datetime_coerce (raw_order_date raw))) rs.
Proof.
  unfold dropna_order_date. induction rs as [|raw rs IH]; [done|].
  rewrite filter_cons.
  destruct (to_datetime_coerce (raw_order_date raw)) as [t|] eqn:Ht.
  - rewrite decide_True by eauto. csimpl. rewrite Ht. csimpl. by rewrite IH.
  - rewrite decide_False by (by intros [? ?]). csimpl. by rewrite Ht.
Qed.

Lemma clean_cells (has_flag : bool) raw (t : Z) (r : order F) :
  clean has_flag raw t = Some r →
  order_id r = raw_order_id raw
  ∧ city r = raw_city raw
  ∧ customer_id r = raw_customer_id raw
  ∧ order_status r = astype_str (raw_order_status raw)
  ∧ delivery_time_minutes r
    = to_numeric_coerce (raw_delivery_time_minutes raw)
  ∧ (has_flag = false → is_repeat_customer r = 0).
Proof.
  unfold clean. intros Hclean.
  destruct has_flag; simpl in Hclean.
  - destruct (astype_int _) as [flag|]; [|done].
    by injection Hclean as <-.
  - by injection Hclean as <-.
Qed.

Lemma load_data_cells df tbl :
  load_data df = Some tbl →
  Forall2 (λ raw r,
             order_id r = raw_order_id raw
             ∧ city r = raw_city raw
             ∧ customer_id r = raw_customer_id raw
             ∧ order_status r = astype_str (raw_order_status raw)
             ∧ delivery_time_minutes r
               = to_numeric_coerce (raw_delivery_time_minutes raw)
             ∧ (has_is_repeat_customer df = false →
                is_repeat_customer r = 0))
          (kept_rows df) tbl.
Proof.
  unfold load_data, kept_rows. intros Hload. apply mapM_Some_1 in Hload.
  rewrite <- dropna_order_date_rows. apply Forall2_fmap_l.
  eapply Forall2_impl; [done|]. intros rt r. apply clean_cells.
Qed.

Lemma Forall2_fmap_eq {A B C} (f : A → C) (g : B → C) (l : list A)
    (k : list B) :
  Forall2 (λ x y, g y = f x) l k → g <$> k = f <$> l.
Proof. induction 1 as [|x y l k Hxy _ IH]; csimpl; [done|]. by rewrite Hxy, IH. Qed.

(** Cleaning keeps the rows whose date parses, in the order of the file,
    and copies their [order_id], [city] and [customer_id] cells as they
    are; a blank [order_status] becomes the text [nan]. *)
Theorem load_data_keeps_cells df tbl :
  load_data df = Some tbl →
  length tbl = length (kept_rows df)
  ∧ order_id <$> tbl = raw_order_id <$> kept_rows df
  ∧ city <$> tbl = raw_city <$> kept_rows df
  ∧ customer_id <$> tbl = raw_customer_id <$> kept_rows df
  ∧ order_status <$> tbl
    = (λ raw, default "nan" (raw_order_status raw)) <$> kept_rows df.
Proof.
  intros Hload. apply load_data_cells in Hload.
  split; [symmetry; by eapply Forall2_length|].
  repeat split; apply Forall2_fmap_eq;
    (eapply Forall2_impl; [done|]); simpl; intros raw r; tauto.
Qed.

(** A delivery time that is blank or no number is missing after cleaning,
    not 0 (unlike [order_value]); a delivery time that is present is a
    number. *)
Theorem delivery_time_stays_missing df tbl :
  load_data df = Some tbl →
  delivery_time_minutes <$> tbl
  = (λ raw, to_numeric_coerce (raw_delivery_time_minutes raw))
    <$> kept_rows df
  ∧ Forall (λ r, ∀ x, delivery_time_minutes r = Some x →
                      num_is_nan x = false) tbl
  ∧ to_numeric_coerce (F:=F) Missing = None.
Proof.
  intros Hload. apply load_data_cells in Hload. split; [|split; [|done]].
  - apply Forall2_fmap_eq. eapply Forall2_impl; [done|].
    simpl; intros raw r; tauto.
  - induction Hload as [|raw r rs tbl Hcells _ IH]; [done|].
    apply Forall_cons_2; [|done]. intros x Hx.
    destruct Hcells as (_ & _ & _ & _ & Hdelivery & _).
    rewrite Hdelivery in Hx. by eapply to_numeric_coerce_not_nan.
Qed.

(** A file without the column [is_repeat_customer] always loads, and
    every row of its table has the flag 0. *)
Theorem load_data_without_flag_column df :
  has_is_repeat_customer df = false →
  ∃ tbl, load_data df = Some tbl
         ∧ Forall (λ r, is_repeat_customer r = 0) tbl.
Proof.
  intros Hflag.
  assert (is_Some (load_data df)) as [tbl Hload].
  { unfold load_data. apply mapM_is_Some, Forall_forall. intros rt _.
    simpl. unfold clean. by rewrite Hflag. }
  exists tbl. split; [done|].
  apply load_data_cells in Hload.
  induction Hload as [|raw r rs tbl' Hcells _ IH]; [done|].
  apply Forall_cons_2; [|done]. by apply Hcells.
Qed.

(** [load_data] fails exactly when the file has the column
    [is_repeat_customer] and, on some row whose date parses, the flag is
    no integer.  A bad flag on a row without a date is dropped with its
    row and does no harm. *)
Theorem load_data_fails_iff df :
  load_data df = None
  ↔ has_is_repeat_customer df = true
    ∧ Exists (λ raw, astype_int (raw_is_repeat_customer raw) = None)
             (kept_rows df).
Proof.
  unfold load_data. rewrite mapM_None.
  unfold kept_rows. rewrite <- dropna_order_date_rows, Exists_fmap.
  destruct (has_is_repeat_customer df) eqn:Hflag.
  - split.
    + intros Hex. split; [done|]. eapply Exists_impl; [done|].
      simpl. intros rt. unfold clean.
      by destruct (astype_int (raw_is_repeat_customer rt.1)).
    + intros [_ Hex]. eapply Exists_impl; [done|].
      simpl. intros rt Hbad. unfold clean. by rewrite Hbad.
  - split; [|by intros [? _]].
    intros Hex. apply Exists_exists in Hex as (rt & _ & Hbad).
    unfold clean in Hbad. by simpl in Hbad.
Qed.

End LoadLaws.

Lemma load_data_keeps_cells_witness :
  order_id <$> sample_table = raw_order_id <$> kept_rows sample_csv.
Proof.
  refine (proj1 (proj2 (load_data_keeps_cells sample_csv sample_table _))).
  by vm_compute.
Defined.

Lemma delivery_time_stays_missing_witness :
  delivery_time_minutes <$> sample_table
  = (λ raw, to_numeric_coerce (raw_delivery_time_minutes raw))
    <$> kept_rows sample_csv.
Proof.
  refine (proj1 (delivery_time_stays_missing sample_csv sample_table _)).
  by vm_compute.
Defined.

Lemma load_data_without_flag_column_witness :
  ∃ tbl, load_data (Csv false (rows sample_csv)) = Some tbl
         ∧ Forall (λ r, is_repeat_customer r = 0) tbl.
Proof.
  apply (load_data_without_flag_column (Csv false (rows sample_csv))).
  reflexivity.
Defined.

(** * From the file to the page *)

(** A file without the column [is_repeat_customer]: whatever the filter,
    the page shows a repeat rate of 0. *)
Theorem repeat_rate_without_flag_column `{Parsers float} (df : csv float)
    (tbl : frame float) (start_date end_date : option Z)
    (selected_cities selected_statuses : option (list string)) :
  has_is_repeat_customer df = false →
  load_data df = Some tbl →
  Z.of_nat (length tbl) < 2 ^ 53 →
  repeat_rate
    (update_dashboard start_date end_date selected_cities selected_statuses
       tbl).1
  = PrimFloat.zero.
Proof.
  intros Hflag Hload Hsmall. unfold update_dashboard. simpl.
  set (view := dff start_date end_date selected_cities selected_statuses tbl).
  assert (Forall (λ r, is_repeat_customer r = 0) tbl) as Hzero.
  { apply load_data_cells in Hload.
    induction Hload as [|raw r rs tbl' Hcells _ IH]; [done|].
    apply Forall_cons_2; [by apply Hcells|]. apply IH. simpl in Hsmall. lia. }
  apply float_repeat_rate_zero.
  - apply repeat_customers_zero, Forall_forall. intros r Hr%dff_subseteq.
    eapply (proj1 (Forall_forall _ _)) in Hzero; [|done]. lia.
  - assert (length view ≤ length tbl)%nat.
    { subst view.
      destruct (mask_filter_dff (F:=float) start_date end_date
                  selected_cities selected_statuses) as [mask ->].
      apply length_filter. }
    pose proof (nunique_le (customer_id <$> view)) as Hle.
    rewrite length_fmap in Hle. unfold unique_customers. lia.
Qed.

Lemma repeat_rate_without_flag_column_witness :
  repeat_rate
    (update_dashboard None None (Some ["Pune"]) None
       (default [] (load_data (Csv false (rows sample_csv))))).1
  = PrimFloat.zero.
Proof.
  apply (repeat_rate_without_flag_column (Csv false (rows sample_csv)));
    by vm_compute.
Defined.

(** * Rates of exactly 100 *)

(** binary64: a positive count divided by itself, times 100, is 100. *)
Lemma float_full_percentage (n : nat) :
  (0 < n)%nat → Z.of_nat n < 2 ^ 53 →
  PrimFloat.mul (PrimFloat.div (float_of_int (Z.of_nat n))
                               (float_of_int (Z.of_nat n)))
                (float_of_int 100) = float_of_int 100.
Proof.
  intros Hn Hsmall. apply Prim2SF_inj.
  rewrite FloatAxioms.mul_spec, FloatAxioms.div_spec.
  rewrite (float_of_int_SF (Z.of_nat n)) by lia.
  destruct (binary_normalize_int (Z.of_nat n) ltac:(lia))
    as (m & e & -> & He & _ & Hd).
  assert (SF64div (S754_finite false m e) (S754_finite false m e)
          = S754_finite false 4503599627370496 (-52)) as ->; [|done].
  unfold SF64div, SFdiv, SFdiv_core_binary.
  simpl Zdigits2. rewrite Hd, fexp_binary64.
  replace (Z.min (Z.max (53 + e - (53 + e) - 53) (-1074)) (e - e))
    with (-53) by lia.
  replace (e - e - -53) with 53 by lia.
  rewrite Z.shiftl_mul_pow2 by lia.
  pose proof (Z_div_mod (Z.pos m * 2 ^ 53) (Z.pos m) ltac:(lia)) as Hdiv.
  destruct (Z.div_eucl (Z.pos m * 2 ^ 53) (Z.pos m)) as [q r].
  destruct Hdiv as [Hdiv Hr].
  assert (q = 2 ^ 53 ∧ r = 0) as [-> ->].
  { apply (Z.div_mod_unique (Z.pos m)); [lia|lia|]. lia. }
  by rewrite new_location_exact.
Qed.

(** A customer counts as a repeat customer as soon as one of its rows is
    flagged: when every customer of the view has a flagged row,
    [repeat_rate] on binary64 is exactly 100. *)
Theorem repeat_rate_all_customers_flagged (df : frame float) :
  Forall (λ r, is_Some (customer_id r) →
               Exists (λ r', customer_id r' = customer_id r
                             ∧ is_repeat_customer r' = 1) df) df →
  (0 < unique_customers df)%nat →
  Z.of_nat (unique_customers df) < 2 ^ 53 →
  repeat_rate (compute_kpis df) = float_of_int 100.
Proof.
  intros Hflagged Hpos Hsmall.
  assert (repeat_customers df = unique_customers df) as Heq.
  { apply Nat.le_antisymm; [apply repeat_le_unique|].
    apply nunique_mono. intros c.
    rewrite !list_elem_of_fmap. intros (r & Hc & Hr).
    eapply (proj1 (Forall_forall _ _)) in Hflagged; [|done].
    rewrite <- Hc in Hflagged.
    apply Exists_exists in Hflagged as (r' & Hr' & Hc' & Hflag); [|eauto].
    exists r'. split; [done|]. by apply list_elem_of_filter. }
  unfold compute_kpis; simpl. rewrite Heq, decide_True by done.
  by apply float_full_percentage.
Qed.

Lemma repeat_rate_all_customers_flagged_witness :
  repeat_rate (compute_kpis three_days) = float_of_int 100.
Proof.
  apply (repeat_rate_all_customers_flagged three_days).
  - by_evaluation.
  - vm_compute. lia.
  - by vm_compute.
Defined.

(** The status filter set to [Cancelled], on a table whose rows each have
    an [order_id] of their own: unless the view is empty, the page shows
    a cancellation rate of exactly 100. *)
Theorem cancellation_rate_of_cancelled_view (start_date end_date : option Z)
    (selected_cities : option (list string)) (orders : frame float) :
  Forall (λ r, is_Some (order_id r)) orders →
  NoDup (order_id <$> orders) →
  Z.of_nat (length orders) < 2 ^ 53 →
  dff start_date end_date selected_cities (Some ["Cancelled"]) orders ≠ [] →
  cancellation_rate
    (update_dashboard start_date end_date selected_cities
       (Some ["Cancelled"]) orders).1
  = float_of_int 100.
Proof.
  intros Hids Hnodup Hsmall Hnonempty. unfold update_dashboard. simpl.
  set (view := dff start_date end_date selected_cities (Some ["Cancelled"])
                   orders) in *.
  assert (view `sublist_of` orders) as Hsub.
  { subst view.
    destruct (mask_filter_dff (F:=float) start_date end_date selected_cities
                (Some ["Cancelled"])) as [mask ->].
    apply sublist_filter. }
  assert (nunique (order_id <$> view) = length view) as Horders.
  { apply nunique_own_ids.
    - apply Forall_forall. intros r Hr.
      eapply (proj1 (Forall_forall _ _)) in Hids; [done|].
      by eapply elem_of_sublist.
    - eapply sublist_NoDup; [done|]. by apply fmap_sublist. }
  assert (filter (λ r, order_status r = "Cancelled") view = view) as Hall.
  { apply filter_all, Forall_forall. intros r Hr. subst view.
    unfold dff in Hr. apply elem_of_by_status in Hr as [_ Hstatus].
    specialize (Hstatus eq_refl). simpl in Hstatus.
    by apply list_elem_of_singleton in Hstatus. }
  unfold compute_kpis; simpl. rewrite cancelled_rows_eq, Hall, Horders.
  assert (0 < length view)%nat by (destruct view; [done|simpl; lia]).
  rewrite decide_True by done.
  apply float_full_percentage; [done|].
  apply sublist_length in Hsub. lia.
Qed.

Lemma cancellation_rate_of_cancelled_view_witness :
  cancellation_rate
    (update_dashboard None None None (Some ["Cancelled"]) three_days).1
  = float_of_int 100.
Proof.
  apply (cancellation_rate_of_cancelled_view None None None three_days).
  - by_evaluation.
  - by_evaluation.
  - by vm_compute.
  - by vm_compute.
Defined.

(** * Widening a selection *)

(** Adding cities to a selection that is not empty never hides a row that
    was shown; likewise for statuses.  (From the empty selection, which
    shows every row, the first city selected does hide rows.) *)
Theorem wider_selection_keeps_rows {F} (selected wider : list string)
    (df : frame F) (r : order F) :
  selected ≠ [] → selected ⊆ wider →
  (r ∈ by_city (Some selected) df → r ∈ by_city (Some wider) df)
  ∧ (r ∈ by_status (Some selected) df → r ∈ by_status (Some wider) df).
Proof.
  intros Hne Hsub.
  assert (truthy (Some selected) = true) as Hsel by by destruct selected.
  assert (wider ≠ []) as Hne'.
  { destruct selected as [|v vs]; [done|]. intros ->.
    by eapply not_elem_of_nil, Hsub; left. }
  assert (truthy (Some wider) = true) as Hwid by by destruct wider.
  rewrite !elem_of_by_city, !elem_of_by_status, Hsel, Hwid. simpl. split.
  - intros [Hr Hc]. split; [done|]. intros _.
    destruct (Hc eq_refl) as (c & ? & ?). eauto.
  - intros [Hr Hs]. split; [done|]. eauto.
Qed.

Lemma wider_selection_keeps_rows_witness :
  afternoon_order ∈ by_city (Some ["Pune"; "Delhi"]) [afternoon_order].
Proof.
  refine (proj1 (wider_selection_keeps_rows ["Pune"] ["Pune"; "Delhi"]
                   [afternoon_order] afternoon_order _ _) _).
  - done.
  - by_evaluation.
  - vm_compute. left.
Defined.

(** * The daily revenue *)

Lemma add_to_group_keys {A} (k : Z) (x : A) (n : nat)
    (groups : list (Z * list A)) (tbl : list (Z * nat)) :
  groups.*1 = tbl.*1 → (add_to_group k x groups).*1 = (bump k n tbl).*1.
Proof.
  revert tbl. induction groups as [|[k1 xs] groups IH];
    intros [|[k2 c] tbl]; simpl; try done.
  intros [= <- Hrest]. repeat case_decide; csimpl; f_equal; eauto.
  by f_equal.
Qed.

Lemma groupby_date_keys `(df : frame F) :
  (groupby_date df).*1 = (fig_orders_volume_trend df).*1.
Proof.
  induction df as [|r df IH]; simpl; [done|].
  destruct (order_date r); [by apply add_to_group_keys|done].
Qed.

Lemma on_day_fmap {A B} (f : A → B) (k : Z) (rows : list (Z * A)) :
  on_day k ((λ g, (g.1, f g.2)) <$> rows) = f <$> on_day k rows.
Proof.
  induction rows as [|[k' c] rows IH]; simpl; [done|].
  by destruct (decide (k = k')).
Qed.

Lemma on_day_add_to_group {A} (k k' : Z) (x : A)
    (groups : list (Z * list A)) :
  StronglySorted Z.lt groups.*1 →
  on_day k (add_to_group k' x groups)
  = if decide (k = k') then Some (x :: default [] (on_day k groups))
    else on_day k groups.
Proof.
  induction groups as [|[k2 xs] groups IH]; simpl; intros Hsorted.
  - by destruct (decide (k = k')).
  - apply StronglySorted_inv in Hsorted as [Hrest Hhead].
    destruct (decide (k' < k2)) as [Hlt|Hge]; simpl.
    + destruct (decide (k = k')) as [->|Hne]; [|done].
      rewrite decide_False by lia. rewrite on_day_absent; [done|].
      intros Hin. eapply (proj1 (Forall_forall _ _)) in Hhead; [|done]. lia.
    + destruct (decide (k' = k2)) as [->|Hne2]; simpl.
      * by destruct (decide (k = k2)).
      * rewrite IH by done.
        destruct (decide (k = k2)) as [->|]; [|done].
        by rewrite decide_False by lia.
Qed.

Lemma groupby_date_sorted `(df : frame F) :
  StronglySorted Z.lt (groupby_date df).*1.
Proof. rewrite groupby_date_keys. apply daily_sorted. Qed.

(** The group of day [k]: that day's rows, in the order of the frame. *)
Lemma on_day_groupby_date `(df : frame F) (k : Z) (g : frame F) :
  on_day k (groupby_date df) = Some g
  ↔ g ≠ [] ∧ g = filter (λ r, date <$> order_date r = Some k) df.
Proof.
  revert g. induction df as [|r df IH]; intros g; simpl.
  - split; [done|by intros [? ->]].
  - rewrite filter_cons.
    destruct (order_date r) as [t|] eqn:Ht; simpl.
    + rewrite on_day_add_to_group by apply groupby_date_sorted.
      destruct (decide (k = date t)) as [->|Hne].
      * rewrite decide_True by done.
        assert (default [] (on_day (date t) (groupby_date df))
                = filter (λ r, date <$> order_date r = Some (date t)) df)
          as ->.
        { pose proof IH as IHt. clear IH.
          destruct (on_day (date t) (groupby_date df)) as [g'|] eqn:Hon in |- *.
          - by apply IHt in Hon as [_ ->].
          - simpl. destruct (filter _ df) as [|r' ys] eqn:Hys; [done|].
            assert (on_day (date t) (groupby_date df) = Some (r' :: ys))
              as Hsome by (apply IHt; rewrite ?Hys; done).
            by rewrite Hon in Hsome. }
        split; [by intros [= <-]|by intros [_ ->]].
      * rewrite decide_False by congruence. apply IH.
    + apply IH.
Qed.

(** The revenue chart has the same days as the order-volume chart, in the
    same ascending order, and the revenue of a day is the sum, as pandas
    computes it, of the values of that day's rows in the order of the
    frame. *)
Theorem revenue_trend_is_the_groupby `(group_sum : list F → F)
    (df : frame F) :
  (fig_revenue_trend group_sum df).*1 = (fig_orders_volume_trend df).*1
  ∧ ∀ k v,
      on_day k (fig_revenue_trend group_sum df) = Some v
      ↔ (∃ r, r ∈ df ∧ date <$> order_date r = Some k)
        ∧ v = group_sum
                (order_value
                 <$> filter (λ r, date <$> order_date r = Some k) df).
Proof.
  unfold fig_revenue_trend. split.
  - rewrite <- groupby_date_keys, <- list_fmap_compose. done.
  - intros k v.
    rewrite (on_day_fmap (λ g, group_sum (order_value <$> g))).
    rewrite fmap_Some. split.
    + intros (g & [Hne ->]%on_day_groupby_date & ->). split; [|done].
      destruct (filter _ df) as [|r ys] eqn:Hg; [done|].
      assert (r ∈ filter (λ r, date <$> order_date r = Some k) df) as Hr
        by (rewrite Hg; left).
      apply list_elem_of_filter in Hr as [? ?]. eauto.
    + intros [(r & Hr & Hday) ->].
      exists (filter (λ r, date <$> order_date r = Some k) df).
      split; [|done]. apply on_day_groupby_date. split; [|done].
      intros Hnil.
      assert (r ∈ filter (λ r, date <$> order_date r = Some k) df) as Hin
        by by apply list_elem_of_filter.
      rewrite Hnil in Hin. by apply elem_of_nil in Hin.
Qed.
